(** * github-dev-intel: the aggregation and normalisation layer of [src/index.ts]

    A shallow embedding of the request handlers of the service (overview,
    trending, repo-stats, search, compare), of [formatRepo] and of
    [fetchGitHub], together with the properties of the specification that
    concern them.

    Conventions of the embedding.
    - An upstream JSON document is a [value]; a JavaScript object is an
      association list whose first binding of a key is the property's value.
    - JavaScript numbers are modelled by [num]: exact rationals extended with
      NaN and the two infinities, without a negative zero.  The model is
      exact wherever IEEE doubles are: on integers below 2^53, their sums
      and their comparisons.  The one quotient of the program,
      [Math.round(sum / n)] with [n <= 5], rounds in doubles as it does in
      exact arithmetic when every count is below 2^48 ([safe_count]): the
      sum is then below 2^53, and [sum / n], below 2^48, is either a half
      integer, which a double holds exactly, or at least [1 / (2 n)] away
      from one, which is more than the rounding error of the division.
      The statements on [avgStars] as a number carry that bound.
    - Strings are sequences of 8-bit characters; on ASCII text, code units,
      characters and UTF-8 bytes coincide.
    - A computation that may throw, or a promise that may reject, is a value
      of [M A = exn + A].
    - The network, the clock and the engine-defined conversions are the
      three fields of a [World]; the upstream answers a given URL the same
      way throughout a handler run.
    - A response is serialised by [JSON.stringify], modelled by [JSON_of]. *)

From Stdlib Require Import ZArith QArith Qabs Qround Qreduction Qcanon.
From Stdlib Require Import List String Ascii Bool Lia.
Import ListNotations.

Set Warnings "-register-all".

Local Open Scope string_scope.
Local Open Scope Z_scope.

(* ===================================================================== *)
(** * Exceptions and the error monad *)
(* ===================================================================== *)

(** A thrown JavaScript [Error] object: its constructor name and message. *)
Record exn : Type := mkExn { exn_name : string; message : string }.

Definition M (A : Type) : Type := (exn + A)%type.

Definition ret {A} (a : A) : M A := inr a.
Definition throw {A} (e : exn) : M A := inl e.

Definition bind {A B} (m : M A) (k : A -> M B) : M B :=
  match m with
  | inl e => inl e
  | inr a => k a
  end.

(** [try { m } catch (e) { h e }] *)
Definition try_catch {A} (m : M A) (h : exn -> M A) : M A :=
  match m with
  | inl e => h e
  | inr a => inr a
  end.

(** [p.catch(() => d)] on a promise: a rejection is replaced by [d]. *)
Definition catch_default {A} (m : M A) (d : A) : M A :=
  try_catch m (fun _ => ret d).

Declare Scope js_scope.
Delimit Scope js_scope with js.
Notation "x <- m ;; k" := (bind m (fun x => k))
  (at level 61, m at next level, right associativity) : js_scope.
Local Open Scope js_scope.

Fixpoint mapM {A B} (f : A -> M B) (l : list A) : M (list B) :=
  match l with
  | [] => ret []
  | a :: r => b <- f a ;; bs <- mapM f r ;; ret (b :: bs)
  end.

(** [arr.reduce(f, init)] with a callback that may throw. *)
Fixpoint reduce {A B} (f : A -> B -> M A) (l : list B) (acc : A) : M A :=
  match l with
  | [] => ret acc
  | b :: r => acc' <- f acc b ;; reduce f r acc'
  end.

Definition Error (msg : string) : exn := mkExn "Error" msg.
Definition TypeError (msg : string) : exn := mkExn "TypeError" msg.
Definition RangeError (msg : string) : exn := mkExn "RangeError" msg.

(* ===================================================================== *)
(** * JavaScript numbers and values *)
(* ===================================================================== *)

Inductive num : Type :=
| NaN
| Inf (negative : bool)
| Fin (q : Q).

Definition num_of_Z (z : Z) : num := Fin (inject_Z z).

Inductive value : Type :=
| VUndefined
| VNull
| VBool (b : bool)
| VNum (n : num)
| VStr (s : string)
| VArr (items : list value)
| VObj (props : list (string * value)).

(** A JSON document proper: what [JSON.stringify] can emit. *)
Inductive json : Type :=
| JNull
| JBool (b : bool)
| JNum (q : Q)
| JStr (s : string)
| JArr (items : list json)
| JObj (props : list (string * json)).

Fixpoint lookup {A} (k : string) (kv : list (string * A)) : option A :=
  match kv with
  | [] => None
  | (k', v) :: r => if String.eqb k k' then Some v else lookup k r
  end.

Definition own_prop (k : string) (kv : list (string * value)) : value :=
  match lookup k kv with
  | Some v => v
  | None => VUndefined
  end.

Definition string_length (s : string) : num :=
  num_of_Z (Z.of_nat (String.length s)).

Definition array_length (l : list value) : num :=
  num_of_Z (Z.of_nat (List.length l)).

(** [v.k]: reading a property.  Reading from [null] or [undefined] throws;
    arrays and strings only have [length] among the names the program
    reads; other primitives have none of them. *)
Definition get_prop (v : value) (k : string) : M value :=
  match v with
  | VUndefined =>
      throw (TypeError ("Cannot read properties of undefined (reading '" ++ k ++ "')"))
  | VNull =>
      throw (TypeError ("Cannot read properties of null (reading '" ++ k ++ "')"))
  | VObj kv => ret (own_prop k kv)
  | VArr l => ret (if String.eqb k "length" then VNum (array_length l) else VUndefined)
  | VStr s => ret (if String.eqb k "length" then VNum (string_length s) else VUndefined)
  | VBool _ | VNum _ => ret VUndefined
  end.

Definition nullish (v : value) : bool :=
  match v with
  | VUndefined | VNull => true
  | _ => false
  end.

(** [v?.k] where [v] is already evaluated. *)
Definition get_opt (v : value) (k : string) : value :=
  match v with
  | VObj kv => own_prop k kv
  | VArr l => if String.eqb k "length" then VNum (array_length l) else VUndefined
  | VStr s => if String.eqb k "length" then VNum (string_length s) else VUndefined
  | _ => VUndefined
  end.

Definition num_is_zero (n : num) : bool :=
  match n with
  | Fin q => Qeq_bool q 0
  | _ => false
  end.

(** ToBoolean *)
Definition truthy (v : value) : bool :=
  match v with
  | VUndefined | VNull => false
  | VBool b => b
  | VNum NaN => false
  | VNum n => negb (num_is_zero n)
  | VStr s => negb (String.eqb s "")
  | VArr _ | VObj _ => true
  end.

(** [a || b] with [b] free of effects. *)
Definition js_or (a b : value) : value := if truthy a then a else b.

(** [v.slice(0, n)] as a method call: arrays and strings have the method. *)
Definition call_slice0 (v : value) (n : nat) : M value :=
  match v with
  | VArr l => ret (VArr (firstn n l))
  | VStr s => ret (VStr (substring 0 n s))
  | VUndefined | VNull => throw (TypeError "Cannot read properties of undefined (reading 'slice')")
  | _ => throw (TypeError "slice is not a function")
  end.

(** [v.map(f)] as a method call: only arrays have the method. *)
Definition call_map (v : value) (f : value -> M value) : M value :=
  match v with
  | VArr l => l' <- mapM f l ;; ret (VArr l')
  | VUndefined | VNull => throw (TypeError "Cannot read properties of undefined (reading 'map')")
  | _ => throw (TypeError "map is not a function")
  end.

(** [v === "s"] *)
Definition strict_eq_str (v : value) (s : string) : bool :=
  match v with
  | VStr s' => String.eqb s' s
  | _ => false
  end.

(* ===================================================================== *)
(** * Arithmetic and comparison of JavaScript numbers *)
(* ===================================================================== *)

Definition Qlt_bool (a b : Q) : bool := negb (Qle_bool b a).

(** [a < b] on numbers; any comparison with NaN is false. *)
Definition num_lt (a b : num) : bool :=
  match a, b with
  | NaN, _ | _, NaN => false
  | Inf true, Inf true => false
  | Inf true, _ => true
  | _, Inf true => false
  | Inf false, _ => false
  | Fin _, Inf false => true
  | Fin x, Fin y => Qlt_bool x y
  end.

(** [a + b] on numbers, exactly: what doubles give when the operands and the
    sum are integers below 2^53.  The statements on sums of star counts
    bound the counts accordingly ([safe_count]). *)
Definition num_add (a b : num) : num :=
  match a, b with
  | NaN, _ | _, NaN => NaN
  | Inf s, Inf s' => if Bool.eqb s s' then Inf s else NaN
  | Inf s, Fin _ | Fin _, Inf s => Inf s
  | Fin x, Fin y => Fin (Qred (x + y))
  end.

Definition Qneg_bool (q : Q) : bool := Qlt_bool q 0.

(** [a / b].  The sign of a zero divisor is taken positive (the divisors of
    the program are array lengths). *)
Definition num_div (a b : num) : num :=
  match a, b with
  | NaN, _ | _, NaN => NaN
  | Inf _, Inf _ => NaN
  | Inf s, Fin y => Inf (xorb s (Qneg_bool y))
  | Fin _, Inf _ => Fin 0
  | Fin x, Fin y =>
      if Qeq_bool y 0 then
        if Qeq_bool x 0 then NaN else Inf (Qneg_bool x)
      else Fin (Qred (x / y))
  end.

(** [Math.round]: the nearest integer, a tie going towards +Infinity. *)
Definition Math_round (n : num) : num :=
  match n with
  | Fin q => Fin (inject_Z (Qfloor (q + (1 # 2))))
  | other => other
  end.

(** Truncation towards zero (ToIntegerOrInfinity on a finite number). *)
Definition Qtrunc (q : Q) : Z :=
  if Qlt_bool q 0 then - Qfloor (- q) else Qfloor q.

(* ===================================================================== *)
(** * Decimal rendering *)
(* ===================================================================== *)

Definition digits : list ascii :=
  ["0"; "1"; "2"; "3"; "4"; "5"; "6"; "7"; "8"; "9"]%char.

Definition digit_char (d : Z) : ascii := nth (Z.to_nat (d mod 10)) digits "0"%char.

(** The [w] low decimal digits of [n], most significant first. *)
Fixpoint pad_dec (w : nat) (n : Z) : string :=
  match w with
  | O => ""
  | S w' => pad_dec w' (n / 10) ++ String (digit_char n) ""
  end.

(** Number of decimal digits of a natural number; the fuel, [log2 n], bounds
    the number of divisions by ten. *)
Fixpoint dec_width (fuel : nat) (n : Z) : nat :=
  match fuel with
  | O => 1
  | S f => if n <? 10 then 1 else S (dec_width f (n / 10))
  end.

Definition nat_to_string (n : Z) : string :=
  pad_dec (dec_width (Z.to_nat (Z.log2 n)) n) n.

(** [String(z)] for an integer below 10^21 in magnitude. *)
Definition Z_to_string (z : Z) : string :=
  if z <? 0 then "-" ++ nat_to_string (- z) else nat_to_string z.

(* ===================================================================== *)
(** * Conversions that depend on the engine *)
(* ===================================================================== *)

(** The parts of the ECMAScript run time that the program reaches only on
    ill-typed upstream data (a star count that is a string, a date that is
    not ISO-8601) are left to the engine. *)
Record Engine : Type := mkEngine {
  (** StringToNumber: the numeric value of a string, NaN when it has none. *)
  StringToNumber : string -> num;
  (** [Date.parse]: the time value of a date string, [None] (NaN) when the
      string is not a date. *)
  Date_parse : string -> option Z;
  (** Number::toString on a number that is not an integer below 10^21. *)
  Number_toString_other : Q -> string;
}.

Section Conversions.

Variable eng : Engine.

Definition Number_toString (n : num) : string :=
  match n with
  | NaN => "NaN"
  | Inf false => "Infinity"
  | Inf true => "-Infinity"
  | Fin q =>
      let r := Qred q in
      if (Zpos (Qden r) =? 1) && (Z.abs (Qnum r) <? 10 ^ 21)
      then Z_to_string (Qnum r)
      else Number_toString_other eng q
  end.

(** ToString of a value; on arrays it is [join(",")], on other objects
    the fixed text of [Object.prototype.toString]. *)
Fixpoint ToString (v : value) : string :=
  match v with
  | VUndefined => "undefined"
  | VNull => "null"
  | VBool true => "true"
  | VBool false => "false"
  | VNum n => Number_toString n
  | VStr s => s
  | VArr l =>
      (fix join (l : list value) : string :=
         match l with
         | [] => ""
         | [x] => if nullish x then "" else ToString x
         | x :: r => (if nullish x then "" else ToString x) ++ "," ++ join r
         end) l
  | VObj _ => "[object Object]"
  end.

(** ToPrimitive: objects and arrays become their string. *)
Definition ToPrimitive (v : value) : value :=
  match v with
  | VArr _ | VObj _ => VStr (ToString v)
  | _ => v
  end.

Definition ToNumber (v : value) : num :=
  match ToPrimitive v with
  | VUndefined => NaN
  | VNull => Fin 0
  | VBool true => Fin 1
  | VBool false => Fin 0
  | VNum n => n
  | VStr s => StringToNumber eng s
  | _ => NaN
  end.

Definition is_string (v : value) : bool :=
  match v with VStr _ => true | _ => false end.

(** [a + b] *)
Definition js_add (a b : value) : value :=
  let pa := ToPrimitive a in
  let pb := ToPrimitive b in
  if is_string pa || is_string pb
  then VStr (ToString pa ++ ToString pb)
  else VNum (num_add (ToNumber pa) (ToNumber pb)).

(** [a > b] *)
Definition js_gt (a b : value) : bool :=
  match ToPrimitive a, ToPrimitive b with
  | VStr x, VStr y => String.ltb y x
  | pa, pb => num_lt (ToNumber pb) (ToNumber pa)
  end.

(** [a / b] *)
Definition js_div (a b : value) : num := num_div (ToNumber a) (ToNumber b).

(** TimeClip: the time value of a date, [None] for an invalid date. *)
Definition TimeClip (n : num) : option Z :=
  match n with
  | Fin q =>
      if Qle_bool (Qabs q) (inject_Z 8640000000000000)
      then Some (Qtrunc q)
      else None
  | _ => None
  end.

(** The time value of [new Date(v)]. *)
Definition new_Date (v : value) : option Z :=
  match ToPrimitive v with
  | VStr s => Date_parse eng s
  | p => TimeClip (ToNumber p)
  end.

(** [new Date(a) > new Date(b)]: dates compare by their time values, and
    an invalid date (NaN) compares false with everything. *)
Definition date_gt (a b : value) : bool :=
  match new_Date a, new_Date b with
  | Some x, Some y => y <? x
  | _, _ => false
  end.

End Conversions.

(* ===================================================================== *)
(** * [JSON.stringify]: the document a response carries *)
(* ===================================================================== *)

(** Properties whose value is [undefined] are left out of an object;
    [undefined] inside an array, NaN and the infinities become [null]. *)
Fixpoint JSON_of (v : value) : json :=
  match v with
  | VUndefined | VNull => JNull
  | VBool b => JBool b
  | VNum (Fin q) => JNum q
  | VNum _ => JNull
  | VStr s => JStr s
  | VArr l => JArr (map JSON_of l)
  | VObj kv =>
      JObj ((fix props (kv : list (string * value)) : list (string * json) :=
               match kv with
               | [] => []
               | (k, VUndefined) :: r => props r
               | (k, x) :: r => (k, JSON_of x) :: props r
               end) kv)
  end.

Definition json_field (k : string) (j : json) : option json :=
  match j with
  | JObj kv => lookup k kv
  | _ => None
  end.

(* ===================================================================== *)
(** * [encodeURIComponent] *)
(* ===================================================================== *)

Definition in_range (lo hi c : ascii) : bool :=
  (nat_of_ascii lo <=? nat_of_ascii c)%nat && (nat_of_ascii c <=? nat_of_ascii hi)%nat.

(** The characters [encodeURIComponent] leaves alone:
    [A-Z a-z 0-9 - _ . ! ~ * ' ( )]. *)
Definition uri_unreserved (c : ascii) : bool :=
  in_range "A" "Z" c || in_range "a" "z" c || in_range "0" "9" c
  || existsb (Ascii.eqb c) ["-"; "_"; "."; "!"; "~"; "*"; "'"; "("; ")"]%char.

Definition hex_digits : list ascii :=
  ["0"; "1"; "2"; "3"; "4"; "5"; "6"; "7"; "8"; "9"; "A"; "B"; "C"; "D"; "E"; "F"]%char.

Definition hex_char (n : nat) : ascii := nth n hex_digits "0"%char.

Definition percent (c : ascii) : string :=
  let n := nat_of_ascii c in
  String "%" (String (hex_char (n / 16)) (String (hex_char (n mod 16)) "")).

Fixpoint encodeURIComponent (s : string) : string :=
  match s with
  | EmptyString => ""
  | String c r =>
      (if uri_unreserved c then String c "" else percent c) ++ encodeURIComponent r
  end.

(* ===================================================================== *)
(** * Dates: the calendar of ECMAScript and [toISOString] *)
(* ===================================================================== *)

Module Calendar.

Definition msPerDay : Z := 86400000.

Definition Day (t : Z) : Z := t / msPerDay.
Definition TimeWithinDay (t : Z) : Z := t mod msPerDay.

Definition is_leap (y : Z) : bool :=
  ((y mod 4 =? 0) && negb (y mod 100 =? 0)) || (y mod 400 =? 0).

Definition DaysInYear (y : Z) : Z := if is_leap y then 366 else 365.

Definition DayFromYear (y : Z) : Z :=
  365 * (y - 1970) + (y - 1969) / 4 - (y - 1901) / 100 + (y - 1601) / 400.

(** The year of day number [d]: the largest [y] with [DayFromYear y <= d].
    The mean length of a year, 146097/400 days, gives an estimate that is
    off by one at most. *)
Definition YearFromDay (d : Z) : Z :=
  let y0 := 1970 + (400 * d) / 146097 in
  if DayFromYear (y0 + 1) <=? d then y0 + 1
  else if DayFromYear y0 <=? d then y0
  else y0 - 1.

Definition YearFromTime (t : Z) : Z := YearFromDay (Day t).

Definition InLeapYear (t : Z) : Z :=
  if is_leap (YearFromTime t) then 1 else 0.

Definition DayWithinYear (t : Z) : Z := Day t - DayFromYear (YearFromTime t).

(** Month number, 0 for January. *)
Definition MonthFromTime (t : Z) : Z :=
  let d := DayWithinYear t in
  let l := InLeapYear t in
  if d <? 31 then 0
  else if d <? 59 + l then 1
  else if d <? 90 + l then 2
  else if d <? 120 + l then 3
  else if d <? 151 + l then 4
  else if d <? 181 + l then 5
  else if d <? 212 + l then 6
  else if d <? 243 + l then 7
  else if d <? 273 + l then 8
  else if d <? 304 + l then 9
  else if d <? 334 + l then 10
  else 11.

(** Day of the month, from 1. *)
Definition DateFromTime (t : Z) : Z :=
  let d := DayWithinYear t in
  let l := InLeapYear t in
  match MonthFromTime t with
  | 0 => d + 1
  | 1 => d - 30
  | 2 => d - 58 - l
  | 3 => d - 89 - l
  | 4 => d - 119 - l
  | 5 => d - 150 - l
  | 6 => d - 180 - l
  | 7 => d - 211 - l
  | 8 => d - 242 - l
  | 9 => d - 272 - l
  | 10 => d - 303 - l
  | _ => d - 333 - l
  end.

Definition HourFromTime (t : Z) : Z := (t / 3600000) mod 24.
Definition MinFromTime (t : Z) : Z := (t / 60000) mod 60.
Definition SecFromTime (t : Z) : Z := (t / 1000) mod 60.
Definition msFromTime (t : Z) : Z := t mod 1000.

(** The year of an ISO string: four digits from 0 to 9999, otherwise a
    sign and six digits. *)
Definition iso_year (y : Z) : string :=
  if (0 <=? y) && (y <=? 9999) then pad_dec 4 y
  else if y <? 0 then "-" ++ pad_dec 6 (- y)
  else "+" ++ pad_dec 6 y.

Definition iso_date (t : Z) : string :=
  iso_year (YearFromTime t) ++ "-" ++ pad_dec 2 (MonthFromTime t + 1)
    ++ "-" ++ pad_dec 2 (DateFromTime t).

Definition iso_time (t : Z) : string :=
  pad_dec 2 (HourFromTime t) ++ ":" ++ pad_dec 2 (MinFromTime t) ++ ":"
    ++ pad_dec 2 (SecFromTime t) ++ "." ++ pad_dec 3 (msFromTime t).

(** [YYYY-MM-DDTHH:mm:ss.sssZ] *)
Definition iso_string (t : Z) : string := iso_date t ++ "T" ++ iso_time t ++ "Z".

(** [d.toISOString()]: an invalid date throws. *)
Definition toISOString (tv : option Z) : M string :=
  match tv with
  | Some t => ret (iso_string t)
  | None => throw (RangeError "Invalid time value")
  end.

(** The civil calendar, independently of the above: the number of the day
    [y]-[m]-[d] ([m] from 1), counted from 1970-01-01. *)
Definition days_before_month (y m : Z) : Z :=
  let l := if is_leap y then 1 else 0 in
  match m with
  | 1 => 0
  | 2 => 31
  | 3 => 59 + l
  | 4 => 90 + l
  | 5 => 120 + l
  | 6 => 151 + l
  | 7 => 181 + l
  | 8 => 212 + l
  | 9 => 243 + l
  | 10 => 273 + l
  | 11 => 304 + l
  | _ => 334 + l
  end.

Definition days_in_month (y m : Z) : Z :=
  match m with
  | 2 => if is_leap y then 29 else 28
  | 4 | 6 | 9 | 11 => 30
  | _ => 31
  end.

Definition days_from_civil (y m d : Z) : Z :=
  DayFromYear y + days_before_month y m + (d - 1).

End Calendar.

(** [s.split(sep)[0]] for a one-character separator: the text before the
    first occurrence of the separator, the whole string when there is none. *)
Fixpoint split_head (sep : ascii) (s : string) : string :=
  match s with
  | EmptyString => ""
  | String c r => if Ascii.eqb c sep then "" else String c (split_head sep r)
  end.

(* ===================================================================== *)
(** * Objects: literals and spread *)
(* ===================================================================== *)

(** [o[k] = v]: an existing property keeps its place, a new one goes last. *)
Fixpoint set_prop (k : string) (v : value) (kv : list (string * value))
  : list (string * value) :=
  match kv with
  | [] => [(k, v)]
  | (k', v') :: r =>
      if String.eqb k k' then (k, v) :: r else (k', v') :: set_prop k v r
  end.

(** The properties of [kv] followed by those of [more], later ones winning:
    the object literal [{...kv, more}]. *)
Definition assign (kv more : list (string * value)) : list (string * value) :=
  fold_left (fun o p => set_prop (fst p) (snd p) o) more kv.

(** [...v] inside an object literal. *)
Definition spread (v : value) : list (string * value) :=
  match v with
  | VObj kv => kv
  | _ => []
  end.

Definition opt_str (o : option string) : value :=
  match o with
  | Some s => VStr s
  | None => VUndefined
  end.

(* ===================================================================== *)
(** * The world: upstream API and clock *)
(* ===================================================================== *)

(** What [fetch] resolves to, as far as [fetchGitHub] looks at it; reading
    the body, as text or as JSON, may reject. *)
Record response : Type := mkResponse {
  ok : bool;
  status : Z;
  text : M string;
  json_body : M value;
}.

Record World : Type := mkWorld {
  (** [fetch(url, {headers})]; a network failure rejects. *)
  http_get : string -> M response;
  (** The time value of the [k]-th [new Date()] of a handler run. *)
  clock : nat -> Z;
  engine : Engine;
}.

Definition GITHUB_API : string := "https://api.github.com".

Definition fetchGitHub (w : World) (path : string) : M value :=
  response <- http_get w (GITHUB_API ++ path) ;;
  if negb (ok response) then
    text <- text response ;;
    throw (Error ("GitHub API error: " ++ Z_to_string (status response) ++ " - "
                    ++ substring 0 200 text))
  else json_body response.

(** [new Date().toISOString()]: the current date is always valid. *)
Definition now_iso (w : World) (k : nat) : value :=
  VStr (Calendar.iso_string (clock w k)).

(* ===================================================================== *)
(** * [formatRepo] *)
(* ===================================================================== *)

Definition formatRepo (repo : value) : M value :=
  full_name <- get_prop repo "full_name" ;;
  name <- get_prop repo "name" ;;
  owner <- get_prop repo "owner" ;;
  description <- get_prop repo "description" ;;
  stargazers_count <- get_prop repo "stargazers_count" ;;
  forks_count <- get_prop repo "forks_count" ;;
  watchers_count <- get_prop repo "watchers_count" ;;
  open_issues_count <- get_prop repo "open_issues_count" ;;
  language <- get_prop repo "language" ;;
  topics <- get_prop repo "topics" ;;
  license <- get_prop repo "license" ;;
  created_at <- get_prop repo "created_at" ;;
  updated_at <- get_prop repo "updated_at" ;;
  pushed_at <- get_prop repo "pushed_at" ;;
  default_branch <- get_prop repo "default_branch" ;;
  homepage <- get_prop repo "homepage" ;;
  html_url <- get_prop repo "html_url" ;;
  archived <- get_prop repo "archived" ;;
  fork <- get_prop repo "fork" ;;
  ret (VObj [
    ("fullName", full_name);
    ("name", name);
    ("owner", get_opt owner "login");
    ("description", description);
    ("stars", stargazers_count);
    ("forks", forks_count);
    ("watchers", watchers_count);
    ("openIssues", open_issues_count);
    ("language", language);
    ("topics", js_or topics (VArr []));
    ("license", js_or (get_opt license "spdx_id") VNull);
    ("createdAt", created_at);
    ("updatedAt", updated_at);
    ("pushedAt", pushed_at);
    ("defaultBranch", default_branch);
    ("homepage", js_or homepage VNull);
    ("url", html_url);
    ("isArchived", archived);
    ("isFork", fork)
  ]).

(** The names of the canonical record, in the order of the literal. *)
Definition canonical_fields : list string :=
  ["fullName"; "name"; "owner"; "description"; "stars"; "forks"; "watchers";
   "openIssues"; "language"; "topics"; "license"; "createdAt"; "updatedAt";
   "pushedAt"; "defaultBranch"; "homepage"; "url"; "isArchived"; "isFork"].

(* ===================================================================== *)
(** * Entrypoints and their prices *)
(* ===================================================================== *)

Record entrypoint : Type := mkEntrypoint {
  key : string;
  price_amount : Z;
}.

Definition entrypoints : list entrypoint := [
  mkEntrypoint "overview" 0;
  mkEntrypoint "trending" 1000;
  mkEntrypoint "repo-stats" 2000;
  mkEntrypoint "releases" 2000;
  mkEntrypoint "search" 2000;
  mkEntrypoint "compare" 5000
].

Definition price_of (k : string) : option Z :=
  option_map price_amount (find (fun e => String.eqb (key e) k) entrypoints).

Definition ZodError (msg : string) : exn := mkExn "ZodError" msg.

(* ===================================================================== *)
(** * overview *)
(* ===================================================================== *)

Definition overview_path : string :=
  "/search/repositories?q=created:>2026-01-24+stars:>100&sort=stars&order=desc&per_page=5".

Definition overview_sample (r : value) : M value :=
  full_name <- get_prop r "full_name" ;;
  stargazers_count <- get_prop r "stargazers_count" ;;
  language <- get_prop r "language" ;;
  description <- get_prop r "description" ;;
  short <- (if nullish description then ret VUndefined
            else call_slice0 description 100) ;;
  ret (VObj [
    ("name", full_name);
    ("stars", stargazers_count);
    ("language", language);
    ("description", short)
  ]).

Definition endpoint_doc (price description : string) : value :=
  VObj [("price", VStr price); ("description", VStr description)].

Definition overview_endpoints : value :=
  VObj [
    ("trending", endpoint_doc "$0.001" "Discover trending repos by timeframe/language");
    ("repo-stats", endpoint_doc "$0.002" "Detailed stats for a specific repository");
    ("releases", endpoint_doc "$0.002" "Recent releases for a repository");
    ("search", endpoint_doc "$0.002" "Search repositories with filters");
    ("compare", endpoint_doc "$0.005" "Compare multiple repositories side-by-side")
  ].

Definition overview_handler (w : World) : M value :=
  data <- fetchGitHub w overview_path ;;
  items <- get_prop data "items" ;;
  top <- call_slice0 items 3 ;;
  sampleTrending <- call_map top overview_sample ;;
  ret (VObj [("output", VObj [
    ("agent", VStr "github-dev-intel");
    ("version", VStr "1.0.0");
    ("description", VStr "GitHub intelligence for AI agents");
    ("dataSource", VStr "GitHub API (live)");
    ("sampleTrending", sampleTrending);
    ("endpoints", overview_endpoints);
    ("fetchedAt", now_iso w 0)
  ])]).

(* ===================================================================== *)
(** * Input schemas shared by the paid entrypoints *)
(* ===================================================================== *)

(** [z.enum(allowed).optional().default(d)] *)
Definition zod_enum_default (allowed : list string) (d : string)
  (raw : option string) : M string :=
  match raw with
  | None => ret d
  | Some s =>
      if existsb (String.eqb s) allowed then ret s
      else throw (ZodError "Invalid enum value")
  end.

(** [z.number().min(1).max(30).optional().default(10)] *)
Definition zod_limit (raw : option Q) : M Q :=
  match raw with
  | None => ret (inject_Z 10)
  | Some n =>
      if negb (Qle_bool (inject_Z 1) n) then
        throw (ZodError "Number must be greater than or equal to 1")
      else if negb (Qle_bool n (inject_Z 30)) then
        throw (ZodError "Number must be less than or equal to 30")
      else ret n
  end.

(** Truthiness of an optional string: absent and empty are both falsy. *)
Definition supplied (o : option string) : option string :=
  match o with
  | Some s => if String.eqb s "" then None else Some s
  | None => None
  end.

(** [`${n}`] for a number of the input. *)
Definition render (w : World) (n : Q) : string := Number_toString (engine w) (Fin n).

(** The part of every search handler after the fetch: count, total and the
    normalised items. *)
Definition search_results (data : value) : M (list (string * value)) :=
  items <- get_prop data "items" ;;
  count <- get_prop items "length" ;;
  total_count <- get_prop data "total_count" ;;
  repos <- call_map items formatRepo ;;
  ret [("count", count); ("totalMatches", total_count); ("repos", repos)].

(* ===================================================================== *)
(** * trending *)
(* ===================================================================== *)

Record trending_raw : Type := mkTrendingRaw {
  raw_timeframe : option string;
  raw_language : option string;
  raw_limit : option Q;
}.

Record trending_input : Type := mkTrendingInput {
  timeframe : string;
  trending_language : option string;
  trending_limit : Q;
}.

Definition trending_schema (raw : trending_raw) : M trending_input :=
  tf <- zod_enum_default ["day"; "week"; "month"] "week" (raw_timeframe raw) ;;
  limit <- zod_limit (raw_limit raw) ;;
  ret (mkTrendingInput tf (raw_language raw) limit).

(** The lookback window of a timeframe, in days. *)
Definition daysAgo (timeframe : string) : Z :=
  let daysAgo := 7 in
  let daysAgo := if String.eqb timeframe "day" then 1 else daysAgo in
  let daysAgo := if String.eqb timeframe "month" then 30 else daysAgo in
  daysAgo.

(** [sinceStr]: the date part of the instant [daysAgo] days before [now]. *)
Definition sinceStr (now : Z) (timeframe : string) : M string :=
  let since := TimeClip (num_of_Z (now - daysAgo timeframe * 24 * 60 * 60 * 1000)) in
  iso <- Calendar.toISOString since ;;
  ret (split_head "T" iso).

Definition trending_query (now : Z) (input : trending_input) : M string :=
  since <- sinceStr now (timeframe input) ;;
  let query := "created:>" ++ since ++ "+stars:>10" in
  let query :=
    match supplied (trending_language input) with
    | Some language => query ++ "+language:" ++ encodeURIComponent language
    | None => query
    end in
  ret query.

Definition trending_path (w : World) (input : trending_input) : M string :=
  query <- trending_query (clock w 0) input ;;
  ret ("/search/repositories?q=" ++ query ++ "&sort=stars&order=desc&per_page="
         ++ render w (trending_limit input)).

Definition trending_handler (w : World) (input : trending_input) : M value :=
  path <- trending_path w input ;;
  data <- fetchGitHub w path ;;
  results <- search_results data ;;
  ret (VObj [("output", VObj ([
    ("timeframe", VStr (timeframe input));
    ("language", match supplied (trending_language input) with
                 | Some language => VStr language
                 | None => VStr "all"
                 end)] ++ results ++ [
    ("fetchedAt", now_iso w 1)
  ])%list)]).

Definition trending (w : World) (raw : trending_raw) : M value :=
  input <- trending_schema raw ;;
  trending_handler w input.

(* ===================================================================== *)
(** * search *)
(* ===================================================================== *)

Record search_raw : Type := mkSearchRaw {
  raw_query : string;
  raw_search_language : option string;
  raw_minStars : option Q;
  raw_sort : option string;
  raw_search_limit : option Q;
}.

Record search_input : Type := mkSearchInput {
  query : string;
  search_language : option string;
  minStars : option Q;
  sort : string;
  search_limit : Q;
}.

Definition search_schema (raw : search_raw) : M search_input :=
  sort <- zod_enum_default ["stars"; "forks"; "updated"; "help-wanted-issues"]
            "stars" (raw_sort raw) ;;
  limit <- zod_limit (raw_search_limit raw) ;;
  ret (mkSearchInput (raw_query raw) (raw_search_language raw) (raw_minStars raw)
         sort limit).

(** Truthiness of an optional number: absent and zero are both falsy. *)
Definition supplied_num (o : option Q) : option Q :=
  match o with
  | Some n => if Qeq_bool n 0 then None else Some n
  | None => None
  end.

(** The composed text [q], before it is encoded as a whole. *)
Definition search_q (w : World) (input : search_input) : string :=
  let q := query input in
  let q :=
    match supplied (search_language input) with
    | Some language => q ++ "+language:" ++ encodeURIComponent language
    | None => q
    end in
  let q :=
    match supplied_num (minStars input) with
    | Some minStars => q ++ "+stars:>=" ++ render w minStars
    | None => q
    end in
  q.

(** The value of the [q] parameter sent upstream. *)
Definition search_query (w : World) (input : search_input) : string :=
  encodeURIComponent (search_q w input).

Definition search_path (w : World) (input : search_input) : string :=
  "/search/repositories?q=" ++ search_query w input ++ "&sort=" ++ sort input
    ++ "&order=desc&per_page=" ++ render w (search_limit input).

Definition opt_num (o : option Q) : value :=
  match o with
  | Some n => VNum (Fin n)
  | None => VUndefined
  end.

Definition search_handler (w : World) (input : search_input) : M value :=
  data <- fetchGitHub w (search_path w input) ;;
  results <- search_results data ;;
  ret (VObj [("output", VObj ([
    ("query", VStr (query input));
    ("filters", VObj [
       ("language", opt_str (search_language input));
       ("minStars", opt_num (minStars input));
       ("sort", VStr (sort input))])] ++ results ++ [
    ("fetchedAt", now_iso w 0)
  ])%list)]).

Definition search (w : World) (raw : search_raw) : M value :=
  input <- search_schema raw ;;
  search_handler w input.

(* ===================================================================== *)
(** * repo-stats *)
(* ===================================================================== *)

(** [Promise.all([a, b, c])]: fulfilled with the three results when all are
    fulfilled, rejected as soon as one is. *)
Definition Promise_all3 {A B C} (a : M A) (b : M B) (c : M C) : M (A * B * C) :=
  x <- a ;; y <- b ;; z <- c ;; ret (x, y, z).

Definition Promise_all2 {A B} (a : M A) (b : M B) : M (A * B) :=
  x <- a ;; y <- b ;; ret (x, y).

Definition contributor_summary (c : value) : M value :=
  login <- get_prop c "login" ;;
  contributions <- get_prop c "contributions" ;;
  html_url <- get_prop c "html_url" ;;
  ret (VObj [
    ("login", login);
    ("contributions", contributions);
    ("profileUrl", html_url)
  ]).

(** The payload built from the three results of the fan-out. *)
Definition repo_stats_output (w : World) (repoData contributors languages : value)
  : M value :=
  formatted <- formatRepo repoData ;;
  size <- get_prop repoData "size" ;;
  has_wiki <- get_prop repoData "has_wiki" ;;
  has_pages <- get_prop repoData "has_pages" ;;
  has_downloads <- get_prop repoData "has_downloads" ;;
  subscribers_count <- get_prop repoData "subscribers_count" ;;
  network_count <- get_prop repoData "network_count" ;;
  top <- call_slice0 contributors 5 ;;
  topContributors <- call_map top contributor_summary ;;
  ret (VObj [("output", VObj (assign (spread formatted) [
    ("size", size);
    ("hasWiki", has_wiki);
    ("hasPages", has_pages);
    ("hasDownloads", has_downloads);
    ("subscribersCount", subscribers_count);
    ("networkCount", network_count);
    ("languages", languages);
    ("topContributors", topContributors);
    ("fetchedAt", now_iso w 0)
  ]))]).

Definition repo_stats_handler (w : World) (repo : string) : M value :=
  fanout <- Promise_all3
    (fetchGitHub w ("/repos/" ++ repo))
    (catch_default (fetchGitHub w ("/repos/" ++ repo ++ "/contributors?per_page=10"))
       (VArr []))
    (catch_default (fetchGitHub w ("/repos/" ++ repo ++ "/languages")) (VObj [])) ;;
  let '(repoData, contributors, languages) := fanout in
  repo_stats_output w repoData contributors languages.

(* ===================================================================== *)
(** * compare *)
(* ===================================================================== *)

(** [z.array(z.string()).min(2).max(5)] *)
Definition compare_schema (repos : list string) : M (list string) :=
  if (List.length repos <? 2)%nat then
    throw (ZodError "Array must contain at least 2 element(s)")
  else if (5 <? List.length repos)%nat then
    throw (ZodError "Array must contain at most 5 element(s)")
  else ret repos.

(** The body of the [async (repo) => ...] callback: one outcome per name,
    a rejection inside the [try] block becoming an error entry. *)
Definition compare_item (w : World) (repo : string) : M value :=
  try_catch
    (fanout <- Promise_all2
       (fetchGitHub w ("/repos/" ++ repo))
       (catch_default (fetchGitHub w ("/repos/" ++ repo ++ "/languages")) (VObj [])) ;;
     let '(data, languages) := fanout in
     formatted <- formatRepo data ;;
     ret (VObj (assign (spread formatted) [
       ("languages", languages);
       ("status", VStr "success")
     ])))
    (fun e =>
       ret (VObj [
         ("fullName", VStr repo);
         ("status", VStr "error");
         ("error", VStr (message e))
       ])).

(** [(r) => r.status === 'success'] *)
Definition is_success (r : value) : M bool :=
  status <- get_prop r "status" ;;
  ret (strict_eq_str status "success").

Fixpoint filterM {A} (f : A -> M bool) (l : list A) : M (list A) :=
  match l with
  | [] => ret []
  | a :: r =>
      keep <- f a ;;
      r' <- filterM f r ;;
      ret (if keep then a :: r' else r')
  end.

(** [arr[0]] *)
Definition index0 (l : list value) : value := nth 0 l VUndefined.

Section Comparison.

Variable eng : Engine.

(** [(a, b) => (a.k > b.k ? a : b)] *)
Definition greater_by (k : string) (a b : value) : M value :=
  x <- get_prop a k ;;
  y <- get_prop b k ;;
  ret (if js_gt eng x y then a else b).

(** [(a, b) => new Date(a.pushedAt) > new Date(b.pushedAt) ? a : b] *)
Definition more_recent (a b : value) : M value :=
  x <- get_prop a "pushedAt" ;;
  y <- get_prop b "pushedAt" ;;
  ret (if date_gt eng x y then a else b).

(** [(sum, r) => sum + r.stars] *)
Definition add_stars (sum r : value) : M value :=
  stars <- get_prop r "stars" ;;
  ret (js_add eng sum stars).

(** The [comparison] object computed from the successful entries. *)
Definition comparison (successful : list value) : M value :=
  byStars <- reduce (greater_by "stars") successful (index0 successful) ;;
  byForks <- reduce (greater_by "forks") successful (index0 successful) ;;
  byPush <- reduce more_recent successful (index0 successful) ;;
  total <- reduce add_stars successful (VNum (Fin 0)) ;;
  ret (VObj [
    ("mostStars", get_opt byStars "fullName");
    ("mostForks", get_opt byForks "fullName");
    ("mostRecent", get_opt byPush "fullName");
    ("avgStars",
      VNum (Math_round (js_div eng total (VNum (array_length successful)))))
  ]).

End Comparison.

Definition compare_handler (w : World) (repos : list string) : M value :=
  repoDataArray <- mapM (compare_item w) repos ;;
  successful <- filterM is_success repoDataArray ;;
  comparison <- comparison (engine w) successful ;;
  ret (VObj [("output", VObj [
    ("requestedRepos", VArr (map VStr repos));
    ("count", VNum (array_length repoDataArray));
    ("repos", VArr repoDataArray);
    ("comparison", comparison);
    ("fetchedAt", now_iso w 0)
  ])]).

Definition compare (w : World) (repos : list string) : M value :=
  input <- compare_schema repos ;;
  compare_handler w input.

(** Reading a path of property names in a payload. *)
Fixpoint path_get (v : value) (ks : list string) : value :=
  match ks with
  | [] => v
  | k :: r => path_get (get_opt v k) r
  end.

(* ===================================================================== *)
(** * Concrete worlds, for examples *)
(* ===================================================================== *)

(** An engine that finds no number and no date in any string. *)
Definition plain_engine : Engine :=
  mkEngine (fun _ => NaN) (fun _ => None) (fun _ => "").

Definition not_found : response :=
  mkResponse false 404 (ret "Not Found")
    (throw (mkExn "SyntaxError" "Unexpected token")).

(** The upstream that serves the documents of [routes] and answers 404 to
    every other path, at a clock that stands still at [now]. *)
Definition world_of (routes : list (string * value)) (now : Z) : World :=
  mkWorld
    (fun url =>
       match lookup url (map (fun r => (GITHUB_API ++ fst r, snd r)) routes) with
       | Some v => ret (mkResponse true 200 (ret "") (ret v))
       | None => ret not_found
       end)
    (fun _ => now)
    plain_engine.

Definition int (z : Z) : value := VNum (num_of_Z z).

(** 2026-02-01T00:00:00.000Z *)
Definition feb_2026 : Z := 1769904000000.

(* ===================================================================== *)
(** * Derived forms, and statements of the specification *)
(* ===================================================================== *)

(** The properties [JSON.stringify] keeps: those whose value is defined. *)
Definition defined (p : string * value) : bool :=
  match snd p with
  | VUndefined => false
  | _ => true
  end.


(** The record [formatRepo] builds from a document that is not nullish. *)
Definition formatRepo_fields (repo : value) : list (string * value) := [
  ("fullName", get_opt repo "full_name");
  ("name", get_opt repo "name");
  ("owner", get_opt (get_opt repo "owner") "login");
  ("description", get_opt repo "description");
  ("stars", get_opt repo "stargazers_count");
  ("forks", get_opt repo "forks_count");
  ("watchers", get_opt repo "watchers_count");
  ("openIssues", get_opt repo "open_issues_count");
  ("language", get_opt repo "language");
  ("topics", js_or (get_opt repo "topics") (VArr []));
  ("license", js_or (get_opt (get_opt repo "license") "spdx_id") VNull);
  ("createdAt", get_opt repo "created_at");
  ("updatedAt", get_opt repo "updated_at");
  ("pushedAt", get_opt repo "pushed_at");
  ("defaultBranch", get_opt repo "default_branch");
  ("homepage", js_or (get_opt repo "homepage") VNull);
  ("url", get_opt repo "html_url");
  ("isArchived", get_opt repo "archived");
  ("isFork", get_opt repo "fork")
].


(** The fields [formatRepo] copies as they are, with their upstream names. *)
Definition copied_fields : list (string * string) := [
  ("fullName", "full_name"); ("name", "name"); ("description", "description");
  ("stars", "stargazers_count"); ("forks", "forks_count");
  ("watchers", "watchers_count"); ("openIssues", "open_issues_count");
  ("language", "language"); ("createdAt", "created_at");
  ("updatedAt", "updated_at"); ("pushedAt", "pushed_at");
  ("defaultBranch", "default_branch"); ("url", "html_url");
  ("isArchived", "archived"); ("isFork", "fork")
].

(** C2 as the specification states it: on every record, every canonical
    field is in the JSON output, a missing owner giving a [null] login. *)
Definition C2_as_stated : Prop :=
  forall props : list (string * value),
    exists out,
      formatRepo (VObj props) = inr out
      /\ (forall k, In k canonical_fields -> json_field k (JSON_of out) <> None)
      /\ (lookup "owner" props = None -> json_field "owner" (JSON_of out) = Some JNull).

(** An item of the upstream search result the overview can summarise: not
    [null], and with a description that is absent, [null], or has a
    [slice] method. *)
Definition sample_ok (r : value) : bool :=
  negb (nullish r)
  && match get_opt r "description" with
     | VUndefined | VNull | VStr _ | VArr _ => true
     | _ => false
     end.

(** The result of [p.catch(() => d)], which never rejects. *)
Definition or_default {A} (m : M A) (d : A) : A :=
  match m with
  | inr a => a
  | inl _ => d
  end.

(** Four search results, as the upstream returns them. *)
Definition four_items : list value := [
  VObj [("full_name", VStr "a/a"); ("stargazers_count", int 900);
        ("language", VStr "Go"); ("description", VStr "first")];
  VObj [("full_name", VStr "b/b"); ("stargazers_count", int 700);
        ("language", VNull); ("description", VNull)];
  VObj [("full_name", VStr "c/c"); ("stargazers_count", int 500)];
  VObj [("full_name", VStr "d/d"); ("stargazers_count", int 300)]
].

Definition overview_world (items : list value) : World :=
  world_of [(overview_path, VObj [("items", VArr items)])] feb_2026.

(** An upstream that knows the repository [a/a] but fails on its
    contributors and on its languages. *)
Definition lone_repo_world : World :=
  world_of [("/repos/a/a", VObj [("full_name", VStr "a/a"); ("size", int 12)])] feb_2026.

(** The two shapes of a per-repository outcome of compare. *)
Definition error_entry (repo : string) (e : exn) : value :=
  VObj [("fullName", VStr repo); ("status", VStr "error"); ("error", VStr (message e))].

Definition success_entry (data languages : value) : value :=
  VObj (assign (formatRepo_fields data)
          [("languages", languages); ("status", VStr "success")]).

(** The outcome the callback of compare resolves to (it never rejects). *)
Definition compare_entry (w : World) (repo : string) : value :=
  or_default (compare_item w repo) VUndefined.

(** A name succeeds when its repository fetch returns a document that
    [formatRepo] accepts. *)
Definition succeeds (w : World) (repo : string) : bool :=
  match fetchGitHub w ("/repos/" ++ repo) with
  | inr data => negb (nullish data)
  | inl _ => false
  end.

(** [r.status === 'success'] and [r.status === 'error'] on an entry. *)
Definition tagged (tag : string) (r : value) : bool :=
  strict_eq_str (get_opt r "status") tag.

(** The callbacks of the three folds, on entries that are objects. *)
Definition pick (gt : value -> value -> bool) (k : string) (a b : value) : value :=
  if gt (get_opt a k) (get_opt b k) then a else b.

(** The [comparison] object, as a function of the successful entries. *)
Definition comparison_value (eng : Engine) (successful : list value) : value :=
  VObj [
    ("mostStars",
      get_opt (fold_left (pick (js_gt eng) "stars") successful (index0 successful))
        "fullName");
    ("mostForks",
      get_opt (fold_left (pick (js_gt eng) "forks") successful (index0 successful))
        "fullName");
    ("mostRecent",
      get_opt (fold_left (pick (date_gt eng) "pushedAt") successful (index0 successful))
        "fullName");
    ("avgStars",
      VNum (Math_round
              (js_div eng
                 (fold_left (fun sum r => js_add eng sum (get_opt r "stars"))
                    successful (VNum (Fin 0)))
                 (VNum (array_length successful)))))
  ].

(** An upstream that knows [b/b] (42 stars, 7 forks) and nothing else. *)
Definition repo_b : value :=
  VObj [("full_name", VStr "b/b"); ("name", VStr "b");
        ("stargazers_count", int 42); ("forks_count", int 7);
        ("pushed_at", VStr "2026-01-15T10:00:00Z")].

Definition b_only_world : World :=
  world_of [("/repos/b/b", repo_b); ("/repos/b/b/languages", VObj [("Go", int 1000)])]
    feb_2026.

(** An upstream that knows no repository at all. *)
Definition empty_world : World := world_of [] feb_2026.

(** Two repositories with the same number of stars and of forks, pushed at
    the same instant. *)
Definition twin (name : string) : value :=
  VObj [("full_name", VStr name); ("stargazers_count", int 5);
        ("forks_count", int 2); ("pushed_at", int 1000)].

Definition twins_world : World :=
  world_of [("/repos/a/a", twin "a/a"); ("/repos/b/b", twin "b/b")] feb_2026.

Definition metric_names : list string :=
  ["mostStars"; "mostForks"; "mostRecent"; "avgStars"].

(** C3 as the specification states it: with no successful entry, the four
    derived metrics are in the JSON output, each with the value [null]. *)
Definition C3_as_stated : Prop :=
  forall (w : World) (repos : list string),
    (2 <= List.length repos <= 5)%nat ->
    filter (succeeds w) repos = [] ->
    exists out,
      compare w repos = inr out
      /\ forall k, In k metric_names ->
           json_field k (JSON_of (path_get out ["output"; "comparison"])) = Some JNull.

(** C4 as the specification states it, in its particular case: of two
    repositories with equal star counts, the first-listed one is
    [mostStars]. *)
Definition C4_as_stated : Prop :=
  forall (w : World) (a b : string) (da db : value) (stars : Z),
    fetchGitHub w ("/repos/" ++ a) = inr da ->
    fetchGitHub w ("/repos/" ++ b) = inr db ->
    get_opt da "stargazers_count" = int stars ->
    get_opt db "stargazers_count" = int stars ->
    exists out,
      compare w [a; b] = inr out
      /\ path_get out ["output"; "comparison"; "mostStars"] = get_opt da "full_name".

(** The quantities the three folds compare, when they are numbers. *)
Definition finite (v : value) : option Q :=
  match v with
  | VNum (Fin q) => Some q
  | _ => None
  end.

Definition stars_of (e : value) : option Q := finite (get_opt e "stars").
Definition forks_of (e : value) : option Q := finite (get_opt e "forks").
Definition pushed_of (eng : Engine) (e : value) : option Q :=
  option_map inject_Z (new_Date eng (get_opt e "pushedAt")).

(** [r] is the last of the entries of [l] at which [m] is greatest. *)
Definition last_maximum (m : value -> option Q) (l : list value) (r : value) : Prop :=
  exists i q,
    nth_error l i = Some r
    /\ m r = Some q
    /\ forall j x, nth_error l j = Some x ->
         exists q', m x = Some q' /\ (q' <= q)%Q /\ ((i < j)%nat -> (q' < q)%Q).

Fixpoint sum_Z (l : list Z) : Z :=
  match l with
  | [] => 0
  | z :: r => z + sum_Z r
  end.

(** Three repositories with 10, 30 and 50 stars. *)
Definition starred (name : string) (stars : Z) : value :=
  VObj [("full_name", VStr name); ("stargazers_count", int stars)].

Definition three_world : World :=
  world_of [("/repos/a/a", starred "a/a" 10); ("/repos/b/b", starred "b/b" 30);
            ("/repos/c/c", starred "c/c" 50)] feb_2026.

Fixpoint all_unreserved (s : string) : bool :=
  match s with
  | EmptyString => true
  | String c r => uri_unreserved c && all_unreserved r
  end.

(** The composed text of C7 as the specification words it: the language
    and the minimum star count appended as they were supplied. *)
Definition claimed_search_q (w : World) (input : search_input) : string :=
  query input
  ++ match search_language input with
     | Some language => "+language:" ++ language
     | None => ""
     end
  ++ match minStars input with
     | Some n => "+stars:>=" ++ render w n
     | None => ""
     end.

Definition search_for (language : option string) (stars : option Q) : search_input :=
  mkSearchInput "foo" language stars "stars" (inject_Z 10).

(** The language filter with the language as supplied. *)
Definition plain_language_filter (language : option string) : string :=
  match supplied language with
  | Some l => "+language:" ++ l
  | None => ""
  end.

(** The language filter and the star filter the code appends. *)
Definition language_filter (language : option string) : string :=
  match supplied language with
  | Some l => "+language:" ++ encodeURIComponent l
  | None => ""
  end.

Definition stars_filter (w : World) (stars : option Q) : string :=
  match supplied_num stars with
  | Some n => "+stars:>=" ++ render w n
  | None => ""
  end.

(** [c] does not occur in [s]. *)
Fixpoint no_char (c : ascii) (s : string) : bool :=
  match s with
  | EmptyString => true
  | String x r => negb (Ascii.eqb x c) && no_char c r
  end.

(* ===================================================================== *)
(** * releases *)
(* ===================================================================== *)

Record releases_raw : Type := mkReleasesRaw {
  raw_releases_repo : string;
  raw_releases_limit : option Q;
}.

Record releases_input : Type := mkReleasesInput {
  releases_repo : string;
  releases_limit : Q;
}.

Definition releases_schema (raw : releases_raw) : M releases_input :=
  limit <- zod_limit (raw_releases_limit raw) ;;
  ret (mkReleasesInput (raw_releases_repo raw) limit).

(** [(a) => ({name, downloadCount, size})] *)
Definition asset_summary (a : value) : M value :=
  name <- get_prop a "name" ;;
  download_count <- get_prop a "download_count" ;;
  size <- get_prop a "size" ;;
  ret (VObj [
    ("name", name);
    ("downloadCount", download_count);
    ("size", size)
  ]).

(** The callback of [releases.map]. *)
Definition release_summary (r : value) : M value :=
  tag_name <- get_prop r "tag_name" ;;
  name <- get_prop r "name" ;;
  draft <- get_prop r "draft" ;;
  prerelease <- get_prop r "prerelease" ;;
  published_at <- get_prop r "published_at" ;;
  author <- get_prop r "author" ;;
  body <- get_prop r "body" ;;
  short <- (if nullish body then ret VUndefined else call_slice0 body 500) ;;
  html_url <- get_prop r "html_url" ;;
  assets <- get_prop r "assets" ;;
  summaries <- (if nullish assets then ret VUndefined
                else call_map assets asset_summary) ;;
  ret (VObj [
    ("tagName", tag_name);
    ("name", name);
    ("isDraft", draft);
    ("isPrerelease", prerelease);
    ("publishedAt", published_at);
    ("author", get_opt author "login");
    ("body", short);
    ("htmlUrl", html_url);
    ("assets", js_or summaries (VArr []))
  ]).

Definition releases_path (w : World) (input : releases_input) : string :=
  "/repos/" ++ releases_repo input ++ "/releases?per_page="
    ++ render w (releases_limit input).

Definition releases_handler (w : World) (input : releases_input) : M value :=
  releases <- fetchGitHub w (releases_path w input) ;;
  count <- get_prop releases "length" ;;
  summaries <- call_map releases release_summary ;;
  ret (VObj [("output", VObj [
    ("repo", VStr (releases_repo input));
    ("count", count);
    ("releases", summaries);
    ("fetchedAt", now_iso w 0)
  ])]).

Definition releases (w : World) (raw : releases_raw) : M value :=
  input <- releases_schema raw ;;
  releases_handler w input.

(* ===================================================================== *)
(** * Auxiliary notions for the further properties *)
(* ===================================================================== *)

Fixpoint all_chars (p : ascii -> bool) (s : string) : bool :=
  match s with
  | EmptyString => true
  | String c r => p c && all_chars p r
  end.

(** The alphabet of a percent-encoded text. *)
Definition uri_encoded (c : ascii) : bool := uri_unreserved c || Ascii.eqb c "%".

Definition hex_value (c : ascii) : nat :=
  let n := nat_of_ascii c in
  if in_range "0" "9" c then n - 48 else n - 55.

(** The reading back of a percent-encoded text, byte by byte. *)
Fixpoint uri_decode (s : string) : string :=
  match s with
  | EmptyString => ""
  | String c r =>
      if Ascii.eqb c "%" then
        match r with
        | String h (String l r') =>
            String (ascii_of_nat (16 * hex_value h + hex_value l)) (uri_decode r')
        | _ => String c (uri_decode r)
        end
      else String c (uri_decode r)
  end.

Definition is_digit (c : ascii) : bool := existsb (Ascii.eqb c) digits.

(** The characters of a request line that would end or extend the [q]
    parameter. *)
Definition delimiters : list ascii := ["&"; "#"; " "; "="; "?"; "/"]%char.

(** A star count as the fold of compare can meet it when the upstream
    omits it: a number or [undefined]. *)
Definition number_or_missing (v : value) : bool :=
  match v with
  | VNum _ | VUndefined => true
  | _ => false
  end.

Definition is_array (v : value) : bool :=
  match v with
  | VArr _ => true
  | _ => false
  end.

(** A search document of four items, and an upstream that answers with it
    the default trending query of [feb_2026] and the search for [foo]. *)
Definition four_results : value :=
  VObj [("total_count", int 4); ("items", VArr four_items)].

Definition search_world : World :=
  world_of
    [("/search/repositories?q=created:>2026-01-25+stars:>10&sort=stars&order=desc&per_page=10",
      four_results);
     ("/search/repositories?q=foo&sort=stars&order=desc&per_page=10", four_results)]
    feb_2026.

(** Two upstream releases: one with a body of 600 characters and one
    asset, one with neither body nor assets. *)
Fixpoint repeat_char (c : ascii) (n : nat) : string :=
  match n with
  | O => ""
  | S n' => String c (repeat_char c n')
  end.

Definition two_releases : value :=
  VArr [
    VObj [("tag_name", VStr "v2"); ("body", VStr (repeat_char "x" 600));
          ("author", VObj [("login", VStr "b")]);
          ("assets", VArr [VObj [("name", VStr "b.tgz"); ("download_count", int 3);
                                 ("size", int 2048)]])];
    VObj [("tag_name", VStr "v1"); ("body", VNull)]
  ].

Definition releases_world : World :=
  world_of [("/repos/b/b/releases?per_page=10", two_releases)] feb_2026.

(** An upstream that knows [a/a] with seven contributors, and one whose
    contributors document is not a list. *)
Definition contributor (login : string) : value :=
  VObj [("login", VStr login); ("contributions", int 1)].

Definition seven_contributors : list value :=
  map contributor ["c1"; "c2"; "c3"; "c4"; "c5"; "c6"; "c7"].

Definition crowded_world : World :=
  world_of [("/repos/a/a", starred "a/a" 10);
            ("/repos/a/a/contributors?per_page=10", VArr seven_contributors)] feb_2026.

Definition odd_contributors_world : World :=
  world_of [("/repos/a/a", starred "a/a" 10);
            ("/repos/a/a/contributors?per_page=10", VObj [("message", VStr "busy")])]
    feb_2026.

(** An upstream where [a/a] has 10 stars and [b/b] has no star count. *)
Definition unstarred_world : World :=
  world_of [("/repos/a/a", starred "a/a" 10);
            ("/repos/b/b", VObj [("full_name", VStr "b/b")])] feb_2026.

(** A count in the range where the doubles of the program behave as the
    exact numbers of the model: the sum of at most five such counts is an
    integer below 2^53, which doubles add exactly, and the double nearest
    to its quotient by their number rounds as the quotient does. *)
Definition safe_count (z : Z) : Prop := 0 <= z < 2 ^ 48.

(** C5 as the specification states it, in what it entails: with a
    non-empty set of successful entries, [avgStars] is a rounded mean, hence
    an integer. *)
Definition C5_as_stated : Prop :=
  forall (w : World) (repos : list string),
    (2 <= List.length repos <= 5)%nat ->
    exists out items,
      compare w repos = inr out
      /\ path_get out ["output"; "repos"] = VArr items
      /\ (filter (tagged "success") items <> [] ->
          exists avg : Z,
            path_get out ["output"; "comparison"; "avgStars"] = int avg).

(** The instants whose year has four digits: 0000-01-01 to 9999-12-31. *)
Definition four_digit_year (t : Z) : Prop :=
  -62167219200000 <= t < 253402300800000.

(** [v] is the text [YYYY-MM-DDTHH:mm:ss.sssZ] of the instant [t]: decimal
    fields of four, two and three digits that lie in their ranges and
    recompose to [t]. *)
Definition iso_timestamp_of (t : Z) (v : value) : Prop :=
  exists y mo d h mi s ms,
    v = VStr (pad_dec 4 y ++ "-" ++ pad_dec 2 mo ++ "-" ++ pad_dec 2 d ++ "T"
                ++ pad_dec 2 h ++ ":" ++ pad_dec 2 mi ++ ":" ++ pad_dec 2 s ++ "."
                ++ pad_dec 3 ms ++ "Z")
    /\ 0 <= y <= 9999 /\ 1 <= mo <= 12 /\ 1 <= d <= Calendar.days_in_month y mo
    /\ 0 <= h < 24 /\ 0 <= mi < 60 /\ 0 <= s < 60 /\ 0 <= ms < 1000
    /\ t = 86400000 * Calendar.days_from_civil y mo d
           + 3600000 * h + 60000 * mi + 1000 * s + ms.

(* ===================================================================== *)
(** * Basic facts about the monad and property access *)
(* ===================================================================== *)

Lemma get_prop_defined (v : value) (k : string) :
  nullish v = false -> get_prop v k = ret (get_opt v k).
Proof. destruct v; simpl; intros H; try discriminate; reflexivity. Qed.

Lemma get_prop_fails (v : value) (k : string) :
  nullish v = true -> exists e, get_prop v k = inl e.
Proof. destruct v; simpl; intros H; try discriminate; eexists; reflexivity. Qed.

Lemma mapM_length {A B} (f : A -> M B) (l : list A) (l' : list B) :
  mapM f l = inr l' -> List.length l' = List.length l.
Proof.
  revert l'. induction l as [|a r IH]; simpl; intros l' H.
  - inversion H. reflexivity.
  - destruct (f a) as [e|b]; simpl in H; [discriminate|].
    destruct (mapM f r) as [e|bs]; simpl in H; [discriminate|].
    inversion H. simpl. f_equal. apply IH. reflexivity.
Qed.

Lemma mapM_pure {A B} (f : A -> M B) (g : A -> B) (l : list A) :
  (forall a, In a l -> f a = ret (g a)) -> mapM f l = ret (map g l).
Proof.
  induction l as [|a r IH]; simpl; intros H; [reflexivity|].
  rewrite (H a) by (left; reflexivity). simpl.
  rewrite IH by (intros; apply H; right; assumption). reflexivity.
Qed.

Lemma filterM_pure {A} (f : A -> M bool) (g : A -> bool) (l : list A) :
  (forall a, In a l -> f a = ret (g a)) -> filterM f l = ret (filter g l).
Proof.
  induction l as [|a r IH]; simpl; intros H; [reflexivity|].
  rewrite (H a) by (left; reflexivity). simpl.
  rewrite IH by (intros; apply H; right; assumption). simpl.
  destruct (g a); reflexivity.
Qed.

(** [JSON.stringify] of an object keeps the defined properties, in order. *)
Lemma JSON_of_object (kv : list (string * value)) :
  JSON_of (VObj kv)
  = JObj (map (fun p => (fst p, JSON_of (snd p))) (filter defined kv)).
Proof.
  simpl. f_equal. induction kv as [|[k v] r IH]; [reflexivity|].
  rewrite IH. destruct v; reflexivity.
Qed.

Lemma lookup_map_snd {A B} (f : A -> B) (k : string) (kv : list (string * A)) :
  lookup k (map (fun p => (fst p, f (snd p))) kv) = option_map f (lookup k kv).
Proof.
  induction kv as [|[k' v] r IH]; simpl; [reflexivity|].
  destruct (String.eqb k k'); [reflexivity | apply IH].
Qed.

Lemma lookup_filter_absent {A} (g : string * A -> bool) (k : string)
  (kv : list (string * A)) :
  lookup k kv = None -> lookup k (filter g kv) = None.
Proof.
  induction kv as [|[k' v] r IH]; simpl; [reflexivity|].
  destruct (String.eqb k k') eqn:E; [discriminate|]. intros H.
  destruct (g (k', v)); simpl; [rewrite E|]; auto.
Qed.

Lemma lookup_In {A} (k : string) (kv : list (string * A)) (v : A) :
  lookup k kv = Some v -> In k (map fst kv).
Proof.
  induction kv as [|[k' v'] r IH]; simpl; [discriminate|].
  destruct (String.eqb k k') eqn:E.
  - apply String.eqb_eq in E. left. symmetry. exact E.
  - intros H. right. apply IH. exact H.
Qed.

(** With distinct keys, a property is in the JSON text exactly when its
    value is defined. *)
Lemma json_field_object (k : string) (kv : list (string * value)) :
  NoDup (map fst kv) ->
  json_field k (JSON_of (VObj kv))
  = match lookup k kv with
    | Some VUndefined | None => None
    | Some v => Some (JSON_of v)
    end.
Proof.
  intros ND. rewrite JSON_of_object. unfold json_field.
  rewrite lookup_map_snd.
  induction kv as [|[k' v] r IH]; simpl; [reflexivity|].
  inversion ND as [|? ? Hnotin ND']; subst.
  destruct (String.eqb k k') eqn:E.
  - apply String.eqb_eq in E. subst k'.
    destruct v; unfold defined; simpl; rewrite ?String.eqb_refl; try reflexivity.
    destruct (lookup k r) as [x|] eqn:L.
    + exfalso. apply Hnotin. eapply lookup_In. exact L.
    + rewrite lookup_filter_absent by exact L. reflexivity.
  - destruct (defined (k', v)); simpl; [rewrite E|]; apply IH; exact ND'.
Qed.

(* ===================================================================== *)
(** * formatRepo *)
(* ===================================================================== *)

Lemma formatRepo_defined (repo : value) :
  nullish repo = false -> formatRepo repo = ret (VObj (formatRepo_fields repo)).
Proof.
  intros H. unfold formatRepo.
  repeat (rewrite (get_prop_defined repo) by exact H; simpl).
  reflexivity.
Qed.

Lemma formatRepo_nullish (repo : value) :
  nullish repo = true -> exists e, formatRepo repo = inl e.
Proof.
  intros H. unfold formatRepo.
  destruct (get_prop_fails repo "full_name" H) as [e He].
  rewrite He. exists e. reflexivity.
Qed.

Lemma formatRepo_fields_names (repo : value) :
  map fst (formatRepo_fields repo) = canonical_fields.
Proof. reflexivity. Qed.

Lemma canonical_fields_NoDup : NoDup canonical_fields.
Proof.
  unfold canonical_fields.
  repeat (constructor; [simpl; intuition discriminate|]). constructor.
Qed.


(* ===================================================================== *)
(** * C2: formatRepo on records with missing fields *)
(* ===================================================================== *)

Lemma formatRepo_fields_NoDup (repo : value) : NoDup (map fst (formatRepo_fields repo)).
Proof. rewrite formatRepo_fields_names. apply canonical_fields_NoDup. Qed.

Lemma own_prop_absent (k : string) (kv : list (string * value)) :
  lookup k kv = None -> own_prop k kv = VUndefined.
Proof. unfold own_prop. intros ->. reflexivity. Qed.

(** C2, the claim as stated fails: the empty record [{}] is normalised to a
    record whose owner is [undefined], so the JSON output has no [owner]
    key at all (nor a [description], a [stars], ...). *)
Lemma formatRepo_missing_owner_not_null : ~ C2_as_stated.
Proof.
  intros H. destruct (H []) as (out & Hrun & _ & Howner).
  vm_compute in Hrun. inversion Hrun; subst out; clear Hrun.
  specialize (Howner eq_refl). vm_compute in Howner. discriminate.
Qed.

(** C2, amended: on every record (a JSON object) [formatRepo] returns,
    whatever is missing from the record, the owner included; the result
    binds the nineteen canonical names; [topics], [license] and [homepage]
    are in the JSON output whatever the upstream sent, as [[]], [null] and
    [null] when it omitted them; the names, description, counts, language,
    timestamps, default branch, URL and flags are copied as the upstream
    has them, and a canonical field is missing from the JSON output exactly
    when its value is [undefined]. *)
Theorem formatRepo_total_with_defaults (props : list (string * value)) :
  exists out,
    formatRepo (VObj props) = inr (VObj out)
    /\ map fst out = canonical_fields
    /\ (lookup "topics" props = None ->
        json_field "topics" (JSON_of (VObj out)) = Some (JArr []))
    /\ (lookup "license" props = None ->
        json_field "license" (JSON_of (VObj out)) = Some JNull)
    /\ (lookup "homepage" props = None ->
        json_field "homepage" (JSON_of (VObj out)) = Some JNull)
    /\ json_field "topics" (JSON_of (VObj out)) <> None
    /\ json_field "license" (JSON_of (VObj out)) <> None
    /\ json_field "homepage" (JSON_of (VObj out)) <> None
    /\ (forall k k', In (k, k') copied_fields -> own_prop k out = own_prop k' props)
    /\ (forall k, In k canonical_fields ->
        (json_field k (JSON_of (VObj out)) = None <-> own_prop k out = VUndefined)).
Proof.
  exists (formatRepo_fields (VObj props)).
  split; [apply formatRepo_defined; reflexivity|].
  split; [reflexivity|].
  pose proof (formatRepo_fields_NoDup (VObj props)) as ND.
  assert (Hundef : forall k, In k canonical_fields ->
            (json_field k (JSON_of (VObj (formatRepo_fields (VObj props)))) = None
             <-> own_prop k (formatRepo_fields (VObj props)) = VUndefined)).
  { intros k Hk. rewrite json_field_object by exact ND. unfold own_prop.
    destruct (lookup k (formatRepo_fields (VObj props))) as [[]|] eqn:L;
      split; intros; congruence. }
  assert (Hor : forall v d, d <> VUndefined -> js_or v d <> VUndefined).
  { intros v d Hd. unfold js_or. destruct (truthy v) eqn:T; [|exact Hd].
    destruct v; simpl in T; discriminate. }
  split.
  { intros Habs. rewrite json_field_object by exact ND.
    cbn [formatRepo_fields lookup String.eqb Ascii.eqb Bool.eqb get_opt].
    rewrite (own_prop_absent _ _ Habs). reflexivity. }
  split.
  { intros Habs. rewrite json_field_object by exact ND.
    cbn [formatRepo_fields lookup String.eqb Ascii.eqb Bool.eqb get_opt].
    rewrite (own_prop_absent _ _ Habs). reflexivity. }
  split.
  { intros Habs. rewrite json_field_object by exact ND.
    cbn [formatRepo_fields lookup String.eqb Ascii.eqb Bool.eqb get_opt].
    rewrite (own_prop_absent _ _ Habs). reflexivity. }
  split.
  { intros H. apply Hundef in H; [|simpl; tauto]. revert H. apply Hor. discriminate. }
  split.
  { intros H. apply Hundef in H; [|simpl; tauto]. revert H. apply Hor. discriminate. }
  split.
  { intros H. apply Hundef in H; [|simpl; tauto]. revert H. apply Hor. discriminate. }
  split; [|exact Hundef].
  intros k k' Hin. simpl in Hin.
  repeat (destruct Hin as [Hin|Hin]; [inversion Hin; subst; reflexivity|]).
  contradiction.
Qed.

Lemma formatRepo_total_with_defaults_witness :
  exists out,
    formatRepo (VObj [("full_name", VStr "a/a")]) = inr (VObj out)
    /\ json_field "topics" (JSON_of (VObj out)) = Some (JArr [])
    /\ json_field "license" (JSON_of (VObj out)) = Some JNull
    /\ json_field "homepage" (JSON_of (VObj out)) = Some JNull
    /\ own_prop "fullName" out = VStr "a/a"
    /\ json_field "description" (JSON_of (VObj out)) = None.
Proof.
  destruct (formatRepo_total_with_defaults [("full_name", VStr "a/a")])
    as (out & Hrun & _ & Ht & Hl & Hh & _ & _ & _ & Hc & Hj).
  exists out. split; [exact Hrun|].
  split; [apply Ht; reflexivity|].
  split; [apply Hl; reflexivity|].
  split; [apply Hh; reflexivity|].
  split; [rewrite (Hc "fullName" "full_name") by (simpl; auto); reflexivity|].
  apply Hj; [simpl; auto|].
  rewrite (Hc "description" "description") by (simpl; auto). reflexivity.
Defined.

(* ===================================================================== *)
(** * C9: the free overview *)
(* ===================================================================== *)

Lemma mapM_total {A B} (f : A -> M B) (l : list A) :
  Forall (fun a => exists b, f a = inr b) l -> exists l', mapM f l = inr l'.
Proof.
  induction 1 as [|a r [b Hb] _ [bs Hbs]]; simpl.
  - eexists; reflexivity.
  - rewrite Hb; simpl. rewrite Hbs; simpl. eexists; reflexivity.
Qed.

Lemma overview_sample_total (r : value) :
  sample_ok r = true -> exists v, overview_sample r = inr v.
Proof.
  unfold sample_ok. intros H. apply andb_prop in H as [Hr Hd].
  apply negb_true_iff in Hr. unfold overview_sample.
  repeat (rewrite (get_prop_defined r) by exact Hr; simpl).
  destruct (get_opt r "description"); try discriminate; simpl; eexists; reflexivity.
Qed.

(** C9: the overview entrypoint is registered with price 0, and when the
    upstream search returns [n] items its [sampleTrending] list has
    [min 3 n] entries: 3 when [n >= 3], [n] otherwise.  Every run that
    returns has that many, and the handler returns whenever the first three
    items are records it can summarise. *)
Theorem overview_free_with_three_samples :
  price_of "overview" = Some 0
  /\ forall (w : World) (data : value) (items : list value),
      fetchGitHub w overview_path = inr data ->
      get_prop data "items" = inr (VArr items) ->
      (forall out, overview_handler w = inr out ->
         exists sample,
           path_get out ["output"; "sampleTrending"] = VArr sample
           /\ List.length sample = Nat.min 3 (List.length items)
           /\ (3 <= List.length items -> List.length sample = 3)%nat
           /\ (List.length items < 3 -> List.length sample = List.length items)%nat)
      /\ (forallb sample_ok (firstn 3 items) = true ->
          exists out, overview_handler w = inr out).
Proof.
  split; [reflexivity|].
  intros w data items Hfetch Hitems. unfold overview_handler.
  rewrite Hfetch; cbn [bind]. rewrite Hitems; cbn [bind call_slice0 call_map ret]. split.
  - intros out Hrun.
    destruct (mapM overview_sample (firstn 3 items)) as [e|sample] eqn:Hmap;
      cbn [bind] in Hrun; [discriminate|].
    inversion Hrun; subst out; clear Hrun.
    exists sample. split; [reflexivity|].
    apply mapM_length in Hmap. rewrite length_firstn in Hmap.
    repeat split; lia.
  - intros Hok. rewrite forallb_forall in Hok.
    destruct (mapM_total overview_sample (firstn 3 items)) as [sample Hmap].
    { apply Forall_forall. intros r Hr. apply overview_sample_total. auto. }
    rewrite Hmap; cbn [bind]. eexists; reflexivity.
Qed.

Lemma overview_free_with_three_samples_witness :
  (exists out sample,
     overview_handler (overview_world four_items) = inr out
     /\ path_get out ["output"; "sampleTrending"] = VArr sample
     /\ List.length sample = 3%nat)
  /\ (exists out sample,
     overview_handler (overview_world (firstn 2 four_items)) = inr out
     /\ path_get out ["output"; "sampleTrending"] = VArr sample
     /\ List.length sample = 2%nat).
Proof.
  destruct overview_free_with_three_samples as [_ H]. split.
  - destruct (H (overview_world four_items) (VObj [("items", VArr four_items)])
                four_items) as [Hlen Hrun]; [vm_compute; reflexivity | reflexivity |].
    destruct (Hrun eq_refl) as [out Hout].
    destruct (Hlen out Hout) as (sample & Hp & _ & H3 & _).
    exists out, sample. split; [exact Hout|]. split; [exact Hp|].
    apply H3. simpl. lia.
  - destruct (H (overview_world (firstn 2 four_items))
                (VObj [("items", VArr (firstn 2 four_items))])
                (firstn 2 four_items)) as [Hlen Hrun];
      [vm_compute; reflexivity | reflexivity |].
    destruct (Hrun eq_refl) as [out Hout].
    destruct (Hlen out Hout) as (sample & Hp & _ & _ & H2).
    exists out, sample. split; [exact Hout|]. split; [exact Hp|].
    apply H2. simpl. lia.
Defined.

(* ===================================================================== *)
(** * C8: the fan-out of repo-stats *)
(* ===================================================================== *)

Lemma catch_default_or_default {A} (m : M A) (d : A) :
  catch_default m d = ret (or_default m d).
Proof. destruct m; reflexivity. Qed.

Lemma repo_stats_output_fields (w : World) (data contributors languages out : value) :
  repo_stats_output w data contributors languages = inr out ->
  path_get out ["output"; "languages"] = languages
  /\ exists top, call_slice0 contributors 5 = inr top
                 /\ call_map top contributor_summary
                    = inr (path_get out ["output"; "topContributors"]).
Proof.
  unfold repo_stats_output. intros H.
  destruct (nullish data) eqn:N.
  - destruct (formatRepo_nullish data N) as [e He]. rewrite He in H. discriminate.
  - rewrite (formatRepo_defined data N) in H; cbn [bind ret] in H.
    repeat (rewrite (get_prop_defined data) in H by exact N; cbn [bind ret] in H).
    destruct (call_slice0 contributors 5) as [e|top]; cbn [bind] in H; [discriminate|].
    destruct (call_map top contributor_summary) as [e|tc] eqn:Hmap; cbn [bind] in H;
      [discriminate|].
    inversion H; subst out; clear H.
    split; [reflexivity|]. exists top. split; [reflexivity|].
    rewrite Hmap. reflexivity.
Qed.

(** C8: in repo-stats a failure of the repository fetch fails the whole
    operation with that failure; a failure of the contributors fetch is
    replaced by the empty list and a failure of the languages fetch by the
    empty mapping, so that the payload is built from those defaults
    ([topContributors] is [[]], [languages] is [{}]) and the operation
    still returns. *)
Theorem repo_stats_failure_policy (w : World) (repo : string) :
  let repo_fetch := fetchGitHub w ("/repos/" ++ repo) in
  let contributors_fetch :=
    fetchGitHub w ("/repos/" ++ repo ++ "/contributors?per_page=10") in
  let languages_fetch := fetchGitHub w ("/repos/" ++ repo ++ "/languages") in
  (forall e, repo_fetch = inl e -> repo_stats_handler w repo = inl e)
  /\ (forall data, repo_fetch = inr data ->
        repo_stats_handler w repo
        = repo_stats_output w data (or_default contributors_fetch (VArr []))
            (or_default languages_fetch (VObj [])))
  /\ (forall data e, repo_fetch = inr data -> contributors_fetch = inl e ->
        repo_stats_handler w repo
        = repo_stats_output w data (VArr []) (or_default languages_fetch (VObj []))
        /\ forall out, repo_stats_handler w repo = inr out ->
             path_get out ["output"; "topContributors"] = VArr [])
  /\ (forall data e, repo_fetch = inr data -> languages_fetch = inl e ->
        repo_stats_handler w repo
        = repo_stats_output w data (or_default contributors_fetch (VArr [])) (VObj [])
        /\ forall out, repo_stats_handler w repo = inr out ->
             path_get out ["output"; "languages"] = VObj [])
  /\ (forall data e e', repo_fetch = inr data -> nullish data = false ->
        contributors_fetch = inl e -> languages_fetch = inl e' ->
        exists out, repo_stats_handler w repo = inr out).
Proof.
  intros repo_fetch contributors_fetch languages_fetch.
  assert (Hok : forall data, repo_fetch = inr data ->
            repo_stats_handler w repo
            = repo_stats_output w data (or_default contributors_fetch (VArr []))
                (or_default languages_fetch (VObj []))).
  { intros data Hr. unfold repo_stats_handler, Promise_all3.
    fold repo_fetch contributors_fetch languages_fetch.
    rewrite Hr, !catch_default_or_default. reflexivity. }
  split.
  { intros e Hr. unfold repo_stats_handler, Promise_all3.
    fold repo_fetch. rewrite Hr. reflexivity. }
  split; [exact Hok|].
  split.
  { intros data e Hr Hc. rewrite (Hok data Hr), Hc. split; [reflexivity|].
    intros out Hout. apply repo_stats_output_fields in Hout.
    destruct Hout as (_ & top & Hs & Hm). cbn in Hs. inversion Hs; subst top.
    cbn in Hm. inversion Hm as [Htop]. symmetry. exact Htop. }
  split.
  { intros data e Hr Hl. rewrite (Hok data Hr), Hl. split; [reflexivity|].
    intros out Hout. apply repo_stats_output_fields in Hout.
    destruct Hout as (Hlang & _). exact Hlang. }
  intros data e e' Hr N Hc Hl. rewrite (Hok data Hr), Hc, Hl.
  unfold repo_stats_output, or_default.
  rewrite (formatRepo_defined data N); cbn [bind ret].
  repeat (rewrite (get_prop_defined data) by exact N; cbn [bind ret]).
  cbn [call_slice0 firstn call_map mapM bind ret]. eexists; reflexivity.
Qed.

Lemma repo_stats_failure_policy_witness :
  exists out,
    repo_stats_handler lone_repo_world "a/a" = inr out
    /\ path_get out ["output"; "topContributors"] = VArr []
    /\ path_get out ["output"; "languages"] = VObj []
    /\ repo_stats_handler lone_repo_world "z/z"
       = inl (Error "GitHub API error: 404 - Not Found").
Proof.
  destruct (repo_stats_failure_policy lone_repo_world "a/a")
    as (_ & _ & Hc & Hl & Hrun).
  destruct (Hrun (VObj [("full_name", VStr "a/a"); ("size", int 12)])
              (Error "GitHub API error: 404 - Not Found")
              (Error "GitHub API error: 404 - Not Found"))
    as [out Hout]; try (vm_compute; reflexivity).
  exists out. split; [exact Hout|].
  split.
  { eapply Hc; [| |exact Hout]; vm_compute; reflexivity. }
  split.
  { eapply Hl; [| |exact Hout]; vm_compute; reflexivity. }
  destruct (repo_stats_failure_policy lone_repo_world "z/z") as (Hfail & _).
  apply Hfail. vm_compute. reflexivity.
Defined.

(* ===================================================================== *)
(** * compare: the per-name outcomes *)
(* ===================================================================== *)

Lemma compare_item_failed (w : World) (repo : string) (e : exn) :
  fetchGitHub w ("/repos/" ++ repo) = inl e ->
  compare_item w repo = ret (error_entry repo e).
Proof. unfold compare_item, Promise_all2. intros ->. reflexivity. Qed.

Lemma compare_item_fetched (w : World) (repo : string) (data : value) :
  fetchGitHub w ("/repos/" ++ repo) = inr data ->
  nullish data = false ->
  compare_item w repo
  = ret (success_entry data
           (or_default (fetchGitHub w ("/repos/" ++ repo ++ "/languages")) (VObj []))).
Proof.
  unfold compare_item, Promise_all2. intros -> N.
  rewrite catch_default_or_default. cbn [bind ret].
  rewrite (formatRepo_defined data N). reflexivity.
Qed.

Lemma compare_item_unformattable (w : World) (repo : string) (data : value) :
  fetchGitHub w ("/repos/" ++ repo) = inr data ->
  nullish data = true ->
  exists e, compare_item w repo = ret (error_entry repo e).
Proof.
  unfold compare_item, Promise_all2. intros -> N.
  rewrite catch_default_or_default. cbn [bind ret].
  destruct (formatRepo_nullish data N) as [e He]. rewrite He.
  exists e. reflexivity.
Qed.

(** The callback never rejects: every name yields an entry. *)
Lemma compare_item_entry (w : World) (repo : string) :
  compare_item w repo = ret (compare_entry w repo).
Proof.
  unfold compare_entry.
  destruct (fetchGitHub w ("/repos/" ++ repo)) as [e|data] eqn:F.
  - rewrite (compare_item_failed w repo e F). reflexivity.
  - destruct (nullish data) eqn:N.
    + destruct (compare_item_unformattable w repo data F N) as [e ->]. reflexivity.
    + rewrite (compare_item_fetched w repo data F N). reflexivity.
Qed.

Lemma compare_entry_cases (w : World) (repo : string) :
  (succeeds w repo = true
   /\ exists data languages,
        fetchGitHub w ("/repos/" ++ repo) = inr data
        /\ compare_entry w repo = success_entry data languages)
  \/ (succeeds w repo = false /\ exists e, compare_entry w repo = error_entry repo e).
Proof.
  unfold compare_entry, succeeds.
  destruct (fetchGitHub w ("/repos/" ++ repo)) as [e|data] eqn:F.
  - right. split; [reflexivity|]. exists e.
    rewrite (compare_item_failed w repo e F). reflexivity.
  - destruct (nullish data) eqn:N.
    + right. split; [reflexivity|].
      destruct (compare_item_unformattable w repo data F N) as [e ->].
      exists e. reflexivity.
    + left. split; [reflexivity|]. do 2 eexists. split; [reflexivity|].
      rewrite (compare_item_fetched w repo data F N). reflexivity.
Qed.

Lemma success_entry_tag (data languages : value) :
  tagged "success" (success_entry data languages) = true
  /\ tagged "error" (success_entry data languages) = false.
Proof. split; reflexivity. Qed.

Lemma error_entry_tag (repo : string) (e : exn) :
  tagged "success" (error_entry repo e) = false
  /\ tagged "error" (error_entry repo e) = true.
Proof. split; reflexivity. Qed.

Lemma compare_entry_tagged (w : World) (repo : string) :
  tagged "success" (compare_entry w repo) = succeeds w repo
  /\ tagged "error" (compare_entry w repo) = negb (succeeds w repo).
Proof.
  destruct (compare_entry_cases w repo) as [(S & data & l & _ & E)|(S & e & E)];
    rewrite E, S.
  - apply success_entry_tag.
  - apply error_entry_tag.
Qed.

Lemma compare_entry_defined (w : World) (repo : string) :
  nullish (compare_entry w repo) = false.
Proof.
  destruct (compare_entry_cases w repo) as [(_ & data & l & _ & E)|(_ & e & E)];
    rewrite E; reflexivity.
Qed.

Lemma is_success_tagged (r : value) :
  nullish r = false -> is_success r = ret (tagged "success" r).
Proof.
  intros N. unfold is_success. rewrite (get_prop_defined r "status" N). reflexivity.
Qed.

Lemma mapM_compare_item (w : World) (repos : list string) :
  mapM (compare_item w) repos = ret (map (compare_entry w) repos).
Proof. apply mapM_pure. intros. apply compare_item_entry. Qed.

Lemma filter_successful (w : World) (repos : list string) :
  filterM is_success (map (compare_entry w) repos)
  = ret (filter (tagged "success") (map (compare_entry w) repos)).
Proof.
  apply filterM_pure. intros r Hr. apply in_map_iff in Hr as (repo & <- & _).
  apply is_success_tagged, compare_entry_defined.
Qed.

(* ===================================================================== *)
(** * compare: the folds *)
(* ===================================================================== *)

Lemma reduce_pure {A B} (P : A -> Prop) (f : A -> B -> M A) (g : A -> B -> A)
  (l : list B) (init : A) :
  (forall a b, P a -> In b l -> f a b = ret (g a b) /\ P (g a b)) ->
  (l <> [] -> P init) ->
  reduce f l init = ret (fold_left g l init).
Proof.
  revert init. induction l as [|b r IH]; intros init Hstep Hinit; [reflexivity|].
  cbn [reduce fold_left].
  destruct (Hstep init b) as [Hf HP]; [apply Hinit; discriminate | left; reflexivity |].
  rewrite Hf. cbn [bind ret]. apply IH.
  - intros a b' Ha Hb'. apply Hstep; [exact Ha | right; exact Hb'].
  - intros _. exact HP.
Qed.

Lemma reduce_pick (gt : value -> value -> bool) (k : string)
  (f : value -> value -> M value) (l : list value) :
  (forall a b, nullish a = false -> nullish b = false -> f a b = ret (pick gt k a b)) ->
  Forall (fun v => nullish v = false) l ->
  reduce f l (index0 l) = ret (fold_left (pick gt k) l (index0 l)).
Proof.
  intros Hf Hl. apply (reduce_pure (fun v => nullish v = false)).
  - intros a b Ha Hb. rewrite Forall_forall in Hl. specialize (Hl b Hb).
    split; [apply Hf; assumption|].
    unfold pick. destruct (gt _ _); assumption.
  - intros Hne. destruct l as [|x r]; [contradiction|].
    inversion Hl; subst. assumption.
Qed.

Lemma comparison_defined (eng : Engine) (successful : list value) :
  Forall (fun v => nullish v = false) successful ->
  comparison eng successful = ret (comparison_value eng successful).
Proof.
  intros Hl. unfold comparison.
  rewrite (reduce_pick (js_gt eng) "stars"); [|
    intros a b Ha Hb; unfold greater_by;
    rewrite (get_prop_defined a _ Ha), (get_prop_defined b _ Hb); reflexivity | exact Hl].
  cbn [bind ret].
  rewrite (reduce_pick (js_gt eng) "forks"); [|
    intros a b Ha Hb; unfold greater_by;
    rewrite (get_prop_defined a _ Ha), (get_prop_defined b _ Hb); reflexivity | exact Hl].
  cbn [bind ret].
  rewrite (reduce_pick (date_gt eng) "pushedAt"); [|
    intros a b Ha Hb; unfold more_recent;
    rewrite (get_prop_defined a _ Ha), (get_prop_defined b _ Hb); reflexivity | exact Hl].
  cbn [bind ret].
  rewrite (reduce_pure (fun _ => True) (add_stars eng)
             (fun sum r => js_add eng sum (get_opt r "stars"))).
  - reflexivity.
  - intros a b _ Hb. rewrite Forall_forall in Hl. unfold add_stars.
    rewrite (get_prop_defined b _ (Hl b Hb)). split; [reflexivity | exact I].
  - intros _. exact I.
Qed.

(** The whole handler, in closed form: it never fails. *)
Lemma compare_handler_value (w : World) (repos : list string) :
  compare_handler w repos
  = ret (VObj [("output", VObj [
      ("requestedRepos", VArr (map VStr repos));
      ("count", VNum (array_length (map (compare_entry w) repos)));
      ("repos", VArr (map (compare_entry w) repos));
      ("comparison",
        comparison_value (engine w)
          (filter (tagged "success") (map (compare_entry w) repos)));
      ("fetchedAt", now_iso w 0)
    ])]).
Proof.
  unfold compare_handler.
  rewrite mapM_compare_item. cbn [bind ret].
  rewrite filter_successful. cbn [bind ret].
  rewrite comparison_defined; [reflexivity|].
  apply Forall_forall. intros r Hr. apply filter_In in Hr as [Hr _].
  apply in_map_iff in Hr as (repo & <- & _). apply compare_entry_defined.
Qed.

Lemma compare_schema_accepts (repos : list string) :
  (2 <= List.length repos <= 5)%nat -> compare_schema repos = ret repos.
Proof.
  intros [Hlo Hhi]. unfold compare_schema.
  destruct (Nat.ltb_spec (List.length repos) 2); [lia|].
  destruct (Nat.ltb_spec 5 (List.length repos)); [lia|]. reflexivity.
Qed.

Lemma filter_map_swap {A B} (p : B -> bool) (f : A -> B) (l : list A) :
  filter p (map f l) = map f (filter (fun a => p (f a)) l).
Proof.
  induction l as [|a r IH]; simpl; [reflexivity|].
  rewrite IH. destruct (p (f a)); reflexivity.
Qed.

Lemma successful_entries (w : World) (repos : list string) :
  filter (tagged "success") (map (compare_entry w) repos)
  = map (compare_entry w) (filter (succeeds w) repos).
Proof.
  rewrite filter_map_swap. f_equal. apply filter_ext.
  intros repo. apply compare_entry_tagged.
Qed.

Lemma filter_twice {A} (p : A -> bool) (l : list A) :
  filter p (filter p l) = filter p l.
Proof.
  induction l as [|a r IH]; simpl; [reflexivity|].
  destruct (p a) eqn:E; simpl; rewrite ?E, IH; reflexivity.
Qed.

Lemma filter_partition_length {A} (p q : A -> bool) (l : list A) :
  (forall a, In a l -> q a = negb (p a)) ->
  (List.length (filter p l) + List.length (filter q l) = List.length l)%nat.
Proof.
  induction l as [|a r IH]; simpl; intros H; [reflexivity|].
  rewrite (H a) by (left; reflexivity).
  specialize (IH (fun x Hx => H x (or_intror Hx))).
  destruct (p a); simpl; lia.
Qed.

(* ===================================================================== *)
(** * C10: one entry per requested name *)
(* ===================================================================== *)

(** C10: for a request of 2 to 5 names, whatever succeeds or fails, compare
    returns; [count] is the number of requested names; [repos] holds, in
    order, the outcome of each requested name; every entry is tagged either
    ["success"] or ["error"], so that [count] is the number of success
    entries plus the number of error entries. *)
Theorem compare_count_is_request_size (w : World) (repos : list string) :
  (2 <= List.length repos <= 5)%nat ->
  exists out items,
    compare w repos = inr out
    /\ path_get out ["output"; "count"] = int (Z.of_nat (List.length repos))
    /\ path_get out ["output"; "repos"] = VArr items
    /\ Forall2 (fun repo item => compare_item w repo = inr item) repos items
    /\ Forall (fun item => tagged "error" item = negb (tagged "success" item)) items
    /\ (List.length (filter (tagged "success") items)
        + List.length (filter (tagged "error") items) = List.length repos)%nat.
Proof.
  intros Hlen. unfold compare.
  rewrite (compare_schema_accepts repos Hlen). cbn [bind ret].
  rewrite compare_handler_value.
  exists (VObj [("output", VObj [
      ("requestedRepos", VArr (map VStr repos));
      ("count", VNum (array_length (map (compare_entry w) repos)));
      ("repos", VArr (map (compare_entry w) repos));
      ("comparison",
        comparison_value (engine w)
          (filter (tagged "success") (map (compare_entry w) repos)));
      ("fetchedAt", now_iso w 0)])]), (map (compare_entry w) repos).
  assert (Htags : forall item, In item (map (compare_entry w) repos) ->
                    tagged "error" item = negb (tagged "success" item)).
  { intros item Hin. apply in_map_iff in Hin as (repo & <- & _).
    destruct (compare_entry_tagged w repo) as [-> ->]. reflexivity. }
  split; [reflexivity|].
  split. { cbn. unfold array_length, int. rewrite length_map. reflexivity. }
  split; [reflexivity|].
  split. { clear. induction repos as [|r rs IH]; simpl; constructor;
           [apply compare_item_entry | exact IH]. }
  split. { apply Forall_forall. exact Htags. }
  rewrite (filter_partition_length _ _ _ Htags). apply length_map.
Qed.

Lemma compare_count_is_request_size_witness :
  exists out items,
    compare b_only_world ["a/a"; "b/b"; "c/c"] = inr out
    /\ path_get out ["output"; "count"] = int 3
    /\ path_get out ["output"; "repos"] = VArr items
    /\ (List.length (filter (tagged "success") items)
        + List.length (filter (tagged "error") items) = 3)%nat.
Proof.
  destruct (compare_count_is_request_size b_only_world ["a/a"; "b/b"; "c/c"])
    as (out & items & Hrun & Hcount & Hrepos & _ & _ & Hsum); [simpl; lia|].
  exists out, items. repeat split; assumption.
Defined.

(* ===================================================================== *)
(** * C1: partial failure in compare *)
(* ===================================================================== *)

Lemma success_entry_copies (data languages : value) (k k' : string) :
  In (k, k') copied_fields ->
  get_opt (success_entry data languages) k = get_opt data k'.
Proof.
  intros Hin. simpl in Hin.
  repeat (destruct Hin as [Hin|Hin]; [inversion Hin; subst; reflexivity|]).
  contradiction.
Qed.

(** C1: for a request of 2 to 5 names the operation returns whatever fails
    upstream; the entry at each position is the outcome of the name at that
    position: the error entry [{fullName: name, status: "error", error:
    message}] when the fetch of that name fails, an entry tagged
    ["success"] that carries the normalised record when it delivers a
    record (a failed languages fetch only leaves [languages] empty); and
    the comparison is computed from the entries tagged ["success"] alone:
    it is the comparison of the request reduced to the names that
    succeed. *)
Theorem compare_isolates_failures (w : World) (repos : list string) :
  (2 <= List.length repos <= 5)%nat ->
  exists out items,
    compare w repos = inr out
    /\ path_get out ["output"; "repos"] = VArr items
    /\ List.length items = List.length repos
    /\ (forall i repo, nth_error repos i = Some repo ->
        exists item,
          nth_error items i = Some item
          /\ compare_item w repo = inr item
          /\ (forall e, fetchGitHub w ("/repos/" ++ repo) = inl e ->
                item = VObj [("fullName", VStr repo); ("status", VStr "error");
                             ("error", VStr (message e))])
          /\ (forall data, fetchGitHub w ("/repos/" ++ repo) = inr data ->
                nullish data = false ->
                tagged "success" item = true
                /\ get_opt item "languages"
                   = or_default (fetchGitHub w ("/repos/" ++ repo ++ "/languages"))
                       (VObj [])
                /\ forall k k', In (k, k') copied_fields ->
                     get_opt item k = get_opt data k'))
    /\ comparison (engine w) (filter (tagged "success") items)
       = inr (path_get out ["output"; "comparison"])
    /\ (exists out',
          compare_handler w (filter (succeeds w) repos) = inr out'
          /\ path_get out' ["output"; "comparison"]
             = path_get out ["output"; "comparison"]).
Proof.
  intros Hlen. unfold compare.
  rewrite (compare_schema_accepts repos Hlen). cbn [bind ret].
  rewrite compare_handler_value.
  eexists. exists (map (compare_entry w) repos).
  split; [reflexivity|].
  split; [reflexivity|].
  split; [apply length_map|].
  split.
  { intros i repo Hi. exists (compare_entry w repo).
    split; [rewrite nth_error_map, Hi; reflexivity|].
    split; [apply compare_item_entry|].
    split.
    - intros e He. pose proof (compare_item_entry w repo) as Hitem.
      rewrite (compare_item_failed w repo e He) in Hitem.
      inversion Hitem as [Heq]. reflexivity.
    - intros data Hd N. pose proof (compare_item_entry w repo) as Hitem.
      rewrite (compare_item_fetched w repo data Hd N) in Hitem.
      inversion Hitem as [Heq]. split; [reflexivity|]. split; [reflexivity|].
      intros k k'. apply success_entry_copies. }
  split.
  { rewrite comparison_defined; [reflexivity|].
    apply Forall_forall. intros r Hr. apply filter_In in Hr as [Hr _].
    apply in_map_iff in Hr as (repo & <- & _). apply compare_entry_defined. }
  rewrite compare_handler_value. eexists. split; [reflexivity|].
  cbn [path_get get_opt own_prop lookup String.eqb Ascii.eqb Bool.eqb].
  rewrite !successful_entries, filter_twice. reflexivity.
Qed.

Lemma compare_isolates_failures_witness :
  exists out items,
    compare b_only_world ["a/a"; "b/b"] = inr out
    /\ path_get out ["output"; "repos"] = VArr items
    /\ List.length items = 2%nat
    /\ path_get out ["output"; "comparison"; "mostStars"] = VStr "b/b"
    /\ path_get out ["output"; "comparison"; "avgStars"] = int 42.
Proof.
  destruct (compare_isolates_failures b_only_world ["a/a"; "b/b"])
    as (out & items & Hrun & Hrepos & Hlen & _ & _ & out' & Hrun' & Hcmp);
    [simpl; lia|].
  exists out, items. split; [exact Hrun|].
  split; [exact Hrepos|]. split; [exact Hlen|].
  vm_compute in Hrun'. inversion Hrun'; subst out'; clear Hrun'.
  cbn [path_get] in *. rewrite <- Hcmp. split; reflexivity.
Defined.

(* ===================================================================== *)
(** * C3: no successful entry *)
(* ===================================================================== *)

(** C3, the claim as stated fails: when both names of a request fail, the
    JSON output has no [mostStars] key (its value is [undefined], not
    [null]). *)
Lemma compare_all_failed_metrics_not_null : ~ C3_as_stated.
Proof.
  intros H.
  destruct (H empty_world ["a/a"; "b/b"]) as (out & Hrun & Hnull);
    [simpl; lia | reflexivity |].
  vm_compute in Hrun. inversion Hrun; subst out; clear Hrun.
  specialize (Hnull "mostStars" (or_introl eq_refl)).
  vm_compute in Hnull. discriminate.
Qed.

(** C3, amended: when no requested repository succeeds, compare still
    returns (no crash); [mostStars], [mostForks] and [mostRecent] are
    [undefined], hence absent from the JSON output, and [avgStars] is NaN,
    which the JSON output renders as [null]. *)
Theorem compare_all_failed_metrics (w : World) (repos : list string) :
  (2 <= List.length repos <= 5)%nat ->
  filter (succeeds w) repos = [] ->
  exists out,
    compare w repos = inr out
    /\ path_get out ["output"; "comparison"]
       = VObj [("mostStars", VUndefined); ("mostForks", VUndefined);
               ("mostRecent", VUndefined); ("avgStars", VNum NaN)]
    /\ JSON_of (path_get out ["output"; "comparison"]) = JObj [("avgStars", JNull)].
Proof.
  intros Hlen Hnone. unfold compare.
  rewrite (compare_schema_accepts repos Hlen). cbn [bind ret].
  rewrite compare_handler_value, successful_entries, Hnone.
  eexists. split; [reflexivity|]. split; reflexivity.
Qed.

Lemma compare_all_failed_metrics_witness :
  exists out,
    compare empty_world ["a/a"; "b/b"] = inr out
    /\ JSON_of (path_get out ["output"; "comparison"]) = JObj [("avgStars", JNull)].
Proof.
  destruct (compare_all_failed_metrics empty_world ["a/a"; "b/b"])
    as (out & Hrun & _ & Hjson); [simpl; lia | reflexivity |].
  exists out. split; assumption.
Defined.

(* ===================================================================== *)
(** * C4: ties in the folds *)
(* ===================================================================== *)

Lemma Qlt_bool_iff (x y : Q) : Qlt_bool x y = true <-> (x < y)%Q.
Proof.
  unfold Qlt_bool. rewrite negb_true_iff. split.
  - intros H. apply Qnot_le_lt. intros Hle.
    apply Qle_bool_iff in Hle. congruence.
  - intros H. destruct (Qle_bool y x) eqn:E; [|reflexivity].
    apply Qle_bool_iff in E. exfalso. exact (Qlt_not_le _ _ H E).
Qed.

Lemma Qlt_bool_false_iff (x y : Q) : Qlt_bool x y = false <-> (y <= x)%Q.
Proof.
  unfold Qlt_bool. rewrite negb_false_iff. apply Qle_bool_iff.
Qed.

Section LastMaximum.

Variable m : value -> option Q.
Variable gt : value -> value -> bool.
Variable k : string.

(** On entries that have a measure, [gt] is the strict order of measures. *)
Hypothesis gt_measure : forall a b qa qb,
  m a = Some qa -> m b = Some qb ->
  gt (get_opt a k) (get_opt b k) = Qlt_bool qb qa.

Lemma pick_same (a : value) : pick gt k a a = a.
Proof. unfold pick. destruct (gt _ _); reflexivity. Qed.

(** One step of the fold: the accumulator is kept when it is strictly
    greater, replaced otherwise, so it stays the last maximum. *)
Lemma pick_extends (l : list value) (acc x : value) (qx : Q) :
  last_maximum m l acc -> m x = Some qx ->
  last_maximum m (l ++ [x])%list (pick gt k acc x).
Proof.
  intros (i & q & Hi & Hq & Hall) Hx. unfold pick.
  rewrite (gt_measure acc x q qx Hq Hx).
  assert (Hil : (i < List.length l)%nat) by (apply nth_error_Some; congruence).
  destruct (Qlt_bool qx q) eqn:C.
  - apply Qlt_bool_iff in C. exists i, q.
    split; [rewrite nth_error_app1 by exact Hil; exact Hi|].
    split; [exact Hq|].
    intros j y Hj. destruct (Nat.lt_ge_cases j (List.length l)) as [Hjl|Hjl].
    + rewrite nth_error_app1 in Hj by exact Hjl. apply Hall. exact Hj.
    + rewrite nth_error_app2 in Hj by exact Hjl.
      destruct (j - List.length l)%nat as [|n] eqn:D; simpl in Hj;
        [|destruct n; discriminate].
      inversion Hj; subst y. exists qx. split; [exact Hx|].
      split; [apply Qlt_le_weak; exact C | intros _; exact C].
  - apply Qlt_bool_false_iff in C. exists (List.length l), qx.
    split; [rewrite nth_error_app2, Nat.sub_diag by lia; reflexivity|].
    split; [exact Hx|].
    intros j y Hj. destruct (Nat.lt_ge_cases j (List.length l)) as [Hjl|Hjl].
    + rewrite nth_error_app1 in Hj by exact Hjl.
      destruct (Hall j y Hj) as (q' & Hy & Hle & _).
      exists q'. split; [exact Hy|].
      split; [eapply Qle_trans; eassumption | lia].
    + rewrite nth_error_app2 in Hj by exact Hjl.
      destruct (j - List.length l)%nat as [|n] eqn:D; simpl in Hj;
        [|destruct n; discriminate].
      inversion Hj; subst y. exists qx. split; [exact Hx|].
      split; [apply Qle_refl | lia].
Qed.

Lemma fold_pick_from_head (a : value) (r : list value) :
  Forall (fun x => m x <> None) (a :: r) ->
  last_maximum m (a :: r) (fold_left (pick gt k) r a).
Proof.
  induction r as [|x r IH] using rev_ind; intros Hall.
  - inversion Hall as [|? ? Ha _]; subst. simpl.
    destruct (m a) as [q|] eqn:Hq; [|contradiction Ha; reflexivity].
    exists 0%nat, q. split; [reflexivity|]. split; [exact Hq|].
    intros [|j] y Hj; simpl in Hj; [|destruct j; discriminate].
    inversion Hj; subst y. exists q. split; [exact Hq|].
    split; [apply Qle_refl | lia].
  - rewrite fold_left_app. cbn [fold_left].
    rewrite app_comm_cons in Hall. apply Forall_app in Hall as [Hl Hx].
    inversion Hx as [|? ? Hmx _]; subst.
    destruct (m x) as [qx|] eqn:Hqx; [|contradiction Hmx; reflexivity].
    rewrite app_comm_cons. apply (pick_extends _ _ _ qx); [apply IH; exact Hl | exact Hqx].
Qed.

(** The fold of the program, seeded with the first entry. *)
Lemma fold_pick_last_maximum (l : list value) :
  l <> [] -> Forall (fun x => m x <> None) l ->
  last_maximum m l (fold_left (pick gt k) l (index0 l)).
Proof.
  destruct l as [|a r]; [contradiction|]. intros _ Hall.
  cbn [fold_left index0 nth]. rewrite pick_same.
  apply fold_pick_from_head. exact Hall.
Qed.

End LastMaximum.

Lemma js_gt_finite (eng : Engine) (field : string) (a b : value) (qa qb : Q) :
  finite (get_opt a field) = Some qa -> finite (get_opt b field) = Some qb ->
  js_gt eng (get_opt a field) (get_opt b field) = Qlt_bool qb qa.
Proof.
  unfold finite. intros Ha Hb.
  destruct (get_opt a field) as [| | |[| |x]| | |]; try discriminate.
  destruct (get_opt b field) as [| | |[| |y]| | |]; try discriminate.
  inversion Ha; inversion Hb; subst. reflexivity.
Qed.

Lemma date_gt_valid (eng : Engine) (a b : value) (qa qb : Q) :
  pushed_of eng a = Some qa -> pushed_of eng b = Some qb ->
  date_gt eng (get_opt a "pushedAt") (get_opt b "pushedAt") = Qlt_bool qb qa.
Proof.
  unfold pushed_of, date_gt. intros Ha Hb.
  destruct (new_Date eng (get_opt a "pushedAt")) as [x|]; [|discriminate].
  destruct (new_Date eng (get_opt b "pushedAt")) as [y|]; [|discriminate].
  inversion Ha; inversion Hb; subst.
  unfold Qlt_bool, Qle_bool, inject_Z. cbn [Qnum Qden].
  rewrite !Z.mul_1_r. apply Z.ltb_antisym.
Qed.

(** C4, the claim as stated fails: of two repositories with five stars
    each, the second-listed one is reported as [mostStars]. *)
Lemma compare_equal_stars_first_does_not_win : ~ C4_as_stated.
Proof.
  intros H.
  destruct (H twins_world "a/a" "b/b" (twin "a/a") (twin "b/b") 5)
    as (out & Hrun & Hmost); try (vm_compute; reflexivity).
  vm_compute in Hrun. inversion Hrun; subst out; clear Hrun.
  vm_compute in Hmost. discriminate.
Qed.

(** C4, amended: with at least one successful entry, each fold resolves
    ties by last occurrence wins: the strict [>] keeps the accumulator only
    when it is strictly greater, so on equal values the later entry
    replaces it.  [mostStars], [mostForks] and [mostRecent] name the last
    of the successful entries at which the star count, the fork count, the
    push date is greatest (for counts that are numbers and dates that are
    valid); in particular, of two repositories with equal star counts the
    second-listed one is [mostStars]. *)
Theorem compare_ties_last_wins (w : World) (repos : list string) :
  (2 <= List.length repos <= 5)%nat ->
  exists out items,
    compare w repos = inr out
    /\ path_get out ["output"; "repos"] = VArr items
    /\ forall successful, successful = filter (tagged "success") items ->
       successful <> [] ->
       (Forall (fun e => stars_of e <> None) successful ->
        exists e, last_maximum stars_of successful e
                  /\ path_get out ["output"; "comparison"; "mostStars"]
                     = get_opt e "fullName")
       /\ (Forall (fun e => forks_of e <> None) successful ->
           exists e, last_maximum forks_of successful e
                     /\ path_get out ["output"; "comparison"; "mostForks"]
                        = get_opt e "fullName")
       /\ (Forall (fun e => pushed_of (engine w) e <> None) successful ->
           exists e, last_maximum (pushed_of (engine w)) successful e
                     /\ path_get out ["output"; "comparison"; "mostRecent"]
                        = get_opt e "fullName").
Proof.
  intros Hlen. unfold compare.
  rewrite (compare_schema_accepts repos Hlen). cbn [bind ret].
  rewrite compare_handler_value.
  eexists. exists (map (compare_entry w) repos).
  split; [reflexivity|]. split; [reflexivity|].
  intros successful -> Hne.
  set (successful := filter (tagged "success") (map (compare_entry w) repos)) in *.
  split; [|split]; intros Hall; eexists; (split; [|reflexivity]).
  - apply fold_pick_last_maximum; [|exact Hne|exact Hall].
    intros a b qa qb. apply js_gt_finite.
  - apply fold_pick_last_maximum; [|exact Hne|exact Hall].
    intros a b qa qb. apply js_gt_finite.
  - apply fold_pick_last_maximum; [|exact Hne|exact Hall].
    intros a b qa qb. apply date_gt_valid.
Qed.

Lemma compare_ties_last_wins_witness :
  exists out e,
    compare twins_world ["a/a"; "b/b"] = inr out
    /\ last_maximum stars_of
         (filter (tagged "success")
            (map (compare_entry twins_world) ["a/a"; "b/b"])) e
    /\ path_get out ["output"; "comparison"; "mostStars"] = get_opt e "fullName"
    /\ path_get out ["output"; "comparison"; "mostStars"] = VStr "b/b".
Proof.
  destruct (compare_ties_last_wins twins_world ["a/a"; "b/b"])
    as (out & items & Hrun & Hitems & Hties); [simpl; lia|].
  assert (Hval : items = map (compare_entry twins_world) ["a/a"; "b/b"]).
  { unfold compare in Hrun. rewrite compare_schema_accepts in Hrun by (simpl; lia).
    cbn [bind ret] in Hrun. rewrite compare_handler_value in Hrun. inversion Hrun; subst out.
    cbn in Hitems. inversion Hitems. reflexivity. }
  subst items.
  destruct (Hties _ eq_refl) as (Hstars & _); [vm_compute; discriminate|].
  destruct Hstars as (e & Hlast & Hname);
    [repeat constructor; vm_compute; discriminate|].
  exists out, e. split; [exact Hrun|]. split; [exact Hlast|]. split; [exact Hname|].
  vm_compute in Hrun. inversion Hrun. reflexivity.
Defined.

(* ===================================================================== *)
(** * C5: the average star count *)
(* ===================================================================== *)

Lemma Qred_inject_Z (z : Z) : Qred (inject_Z z) = inject_Z z.
Proof. apply Qred_identity. simpl. apply Z.gcd_1_r. Qed.

Lemma num_add_int (a b : Z) :
  num_add (num_of_Z a) (num_of_Z b) = num_of_Z (a + b).
Proof.
  unfold num_add, num_of_Z. f_equal.
  rewrite <- inject_Z_plus. apply Qred_inject_Z.
Qed.

Lemma js_add_int (eng : Engine) (a b : Z) : js_add eng (int a) (int b) = int (a + b).
Proof. unfold js_add, int. cbn. f_equal. apply num_add_int. Qed.

Lemma sum_of_stars (eng : Engine) (l : list value) (stars : list Z) (a : Z) :
  map (fun e => get_opt e "stars") l = map int stars ->
  fold_left (fun sum r => js_add eng sum (get_opt r "stars")) l (int a)
  = int (a + sum_Z stars).
Proof.
  revert stars a. induction l as [|e r IH]; intros [|z zs] a H; try discriminate.
  - simpl. rewrite Z.add_0_r. reflexivity.
  - simpl in H. inversion H as [[Hz Hr]]. cbn [fold_left sum_Z].
    rewrite Hz, js_add_int, (IH zs (a + z) Hr). f_equal. lia.
Qed.

(** [Math.round(s / n)] on integers is [floor((2 s + n) / (2 n))]. *)
Lemma round_of_quotient (eng : Engine) (s n : Z) :
  0 < n ->
  Math_round (js_div eng (int s) (int n)) = num_of_Z ((2 * s + n) / (2 * n)).
Proof.
  intros Hn. destruct n as [|p|p]; try lia.
  unfold js_div, int, num_of_Z. cbn [ToNumber ToPrimitive num_div].
  replace (Qeq_bool (inject_Z (Z.pos p)) 0) with false by reflexivity.
  cbn [Math_round]. do 2 f_equal.
  assert (E : (Qred (inject_Z s / inject_Z (Z.pos p)) + (1 # 2) ==
               (2 * s + Z.pos p) # (2 * p))%Q).
  { rewrite Qred_correct, <- Qmake_Qdiv. unfold Qeq, Qplus. cbn [Qnum Qden].
    rewrite !Pos2Z.inj_mul. lia. }
  rewrite E. reflexivity.
Qed.

(** The rounded quotient is an integer nearest to the exact mean [s / n]. *)
Lemma rounded_quotient_nearest (s n k : Z) :
  0 < n ->
  Z.abs (n * ((2 * s + n) / (2 * n)) - s) <= Z.abs (n * k - s).
Proof.
  intros Hn. set (r := (2 * s + n) / (2 * n)).
  assert (Hr : 2 * n * r <= 2 * s + n < 2 * n * r + 2 * n).
  { pose proof (Z.div_mod (2 * s + n) (2 * n) ltac:(lia)) as Hd.
    pose proof (Z.mod_pos_bound (2 * s + n) (2 * n) ltac:(lia)) as Hm.
    fold r in Hd. lia. }
  destruct (Z.lt_trichotomy k r) as [Hk|[Hk|Hk]].
  - assert (n * k <= n * r - n) by nia. lia.
  - subst k. lia.
  - assert (n * r + n <= n * k) by nia. lia.
Qed.

(** C5, the claim as stated fails: of two successful entries, one with 10
    stars and one whose record has no star count, the sum is
    [10 + undefined], and [avgStars] is NaN, not an integer. *)
Lemma compare_avg_stars_not_always_a_mean : ~ C5_as_stated.
Proof.
  intros H.
  destruct (H unstarred_world ["a/a"; "b/b"]) as (out & items & Hrun & Hitems & Havg);
    [simpl; lia|].
  vm_compute in Hrun. inversion Hrun; subst out; clear Hrun.
  vm_compute in Hitems. inversion Hitems; subst items; clear Hitems.
  destruct Havg as [avg Havg]; [vm_compute; discriminate|].
  vm_compute in Havg. discriminate.
Qed.

(** C5, amended: with a non-empty set of successful entries whose star
    counts are the integers [stars], each from 0 to below 2^48, [avgStars]
    is [Math.round] of their arithmetic mean: the integer
    [floor((2 * sum + n) / (2 * n))], which no integer is nearer to
    [sum / n] than (a tie going upwards). *)
Theorem compare_avg_stars_is_rounded_mean (w : World) (repos : list string) :
  (2 <= List.length repos <= 5)%nat ->
  exists out items,
    compare w repos = inr out
    /\ path_get out ["output"; "repos"] = VArr items
    /\ forall stars : list Z,
         stars <> [] ->
         Forall safe_count stars ->
         map (fun e => get_opt e "stars") (filter (tagged "success") items)
           = map int stars ->
         let n := Z.of_nat (List.length stars) in
         let avg := (2 * sum_Z stars + n) / (2 * n) in
         path_get out ["output"; "comparison"; "avgStars"] = int avg
         /\ 2 * n * avg <= 2 * sum_Z stars + n < 2 * n * (avg + 1)
         /\ forall k : Z, Z.abs (n * avg - sum_Z stars) <= Z.abs (n * k - sum_Z stars).
Proof.
  intros Hlen. unfold compare.
  rewrite (compare_schema_accepts repos Hlen). cbn [bind ret].
  rewrite compare_handler_value.
  eexists. exists (map (compare_entry w) repos).
  split; [reflexivity|]. split; [reflexivity|].
  intros stars Hne Hsafe Hstars.
  set (n := Z.of_nat (List.length stars)).
  set (avg := (2 * sum_Z stars + n) / (2 * n)).
  assert (Hn : 0 < n).
  { subst n. destruct stars; [contradiction|simpl; lia]. }
  split; [|split].
  - cbn [path_get get_opt own_prop lookup String.eqb Ascii.eqb Bool.eqb comparison_value].
    change (VNum (Fin 0)) with (int 0).
    rewrite (sum_of_stars (engine w) _ stars 0 Hstars). cbn [Z.add].
    assert (Hcount : array_length (filter (tagged "success") (map (compare_entry w) repos))
                     = num_of_Z n).
    { unfold array_length, n. apply (f_equal (@List.length value)) in Hstars.
      rewrite !length_map in Hstars. rewrite Hstars. reflexivity. }
    rewrite Hcount. change (VNum (num_of_Z n)) with (int n).
    rewrite (round_of_quotient (engine w) (sum_Z stars) n Hn). reflexivity.
  - pose proof (Z.div_mod (2 * sum_Z stars + n) (2 * n) ltac:(lia)) as Hd.
    pose proof (Z.mod_pos_bound (2 * sum_Z stars + n) (2 * n) ltac:(lia)) as Hm.
    fold avg in Hd. lia.
  - intros k. apply rounded_quotient_nearest. exact Hn.
Qed.

Lemma compare_avg_stars_is_rounded_mean_witness :
  exists out,
    compare three_world ["a/a"; "b/b"; "c/c"] = inr out
    /\ path_get out ["output"; "comparison"; "avgStars"] = int 30.
Proof.
  destruct (compare_avg_stars_is_rounded_mean three_world ["a/a"; "b/b"; "c/c"])
    as (out & items & Hrun & Hitems & Havg); [simpl; lia|].
  assert (Hval : items = map (compare_entry three_world) ["a/a"; "b/b"; "c/c"]).
  { unfold compare in Hrun. rewrite compare_schema_accepts in Hrun by (simpl; lia).
    cbn [bind ret] in Hrun. rewrite compare_handler_value in Hrun.
    inversion Hrun; subst out. cbn in Hitems. inversion Hitems. reflexivity. }
  subst items.
  destruct (Havg [10; 30; 50]) as (Hround & _);
    [discriminate | repeat constructor; unfold safe_count; lia | reflexivity |].
  exists out. split; [exact Hrun | exact Hround].
Defined.

(* ===================================================================== *)
(** * C7: the query of search *)
(* ===================================================================== *)

Lemma append_assoc (a b c : string) : (a ++ b) ++ c = a ++ (b ++ c).
Proof. induction a as [|x a IH]; simpl; [reflexivity | rewrite IH; reflexivity]. Qed.

Lemma append_empty_r (a : string) : a ++ "" = a.
Proof. induction a as [|x a IH]; simpl; [reflexivity | rewrite IH; reflexivity]. Qed.

Lemma encodeURIComponent_unreserved (s : string) :
  all_unreserved s = true -> encodeURIComponent s = s.
Proof.
  induction s as [|c r IH]; simpl; [reflexivity|].
  intros H. apply andb_prop in H as [Hc Hr]. rewrite Hc, (IH Hr). reflexivity.
Qed.

Lemma search_q_composition (w : World) (input : search_input) :
  search_q w input
  = query input ++ language_filter (search_language input)
      ++ stars_filter w (minStars input).
Proof.
  unfold search_q, language_filter, stars_filter.
  destruct (supplied (search_language input)), (supplied_num (minStars input));
    rewrite ?append_assoc, ?append_empty_r; reflexivity.
Qed.

(** C7, the claim as stated fails in three ways: a language with reserved
    characters is encoded before it is appended (so twice in all), an empty
    language is not appended, and a minimum of zero stars is not appended. *)
Lemma search_query_not_plain_composition :
  search_query empty_world (search_for (Some "c++") None)
    <> encodeURIComponent (claimed_search_q empty_world (search_for (Some "c++") None))
  /\ search_query empty_world (search_for (Some "") None)
    <> encodeURIComponent (claimed_search_q empty_world (search_for (Some "") None))
  /\ search_query empty_world (search_for None (Some (inject_Z 0)))
    <> encodeURIComponent
         (claimed_search_q empty_world (search_for None (Some (inject_Z 0)))).
Proof. repeat split; vm_compute; discriminate. Qed.

(** C7, amended: the search query starts from the free text, appends
    [+language:<language>] when a non-empty language is supplied and
    [+stars:>=<minStars>] when a non-zero minimum is supplied, and then
    percent-encodes the entire composed string; this for every language
    made of unreserved characters only (letters, digits and
    [- _ . ! ~ * ' ( )]).  [foo], [go], [50] gives the percent-encoding of
    [foo+language:go+stars:>=50].  The trending query, by contrast, is left
    as composed, with only its language token percent-encoded. *)
Theorem search_query_composition (w : World) :
  (forall input,
     match search_language input with
     | Some l => all_unreserved l = true
     | None => True
     end ->
     search_query w input
     = encodeURIComponent
         (query input ++ plain_language_filter (search_language input)
            ++ stars_filter w (minStars input)))
  /\ search_query w (search_for (Some "go") (Some (inject_Z 50)))
     = encodeURIComponent "foo+language:go+stars:>=50"
  /\ (forall now input since,
        sinceStr now (timeframe input) = inr since ->
        trending_query now input
        = inr ("created:>" ++ since ++ "+stars:>10"
                 ++ match supplied (trending_language input) with
                    | Some l => "+language:" ++ encodeURIComponent l
                    | None => ""
                    end)).
Proof.
  split; [|split].
  - intros input Hl. unfold search_query. rewrite search_q_composition.
    unfold language_filter, plain_language_filter, supplied.
    destruct (search_language input) as [l|]; [|reflexivity].
    destruct (String.eqb l ""); [reflexivity|].
    rewrite (encodeURIComponent_unreserved l Hl). reflexivity.
  - reflexivity.
  - intros now input since Hsince. unfold trending_query.
    rewrite Hsince. cbn [bind ret].
    destruct (supplied (trending_language input));
      rewrite ?append_assoc, ?append_empty_r; reflexivity.
Qed.

Lemma search_query_composition_witness :
  search_query empty_world (search_for (Some "rust") (Some (inject_Z 100)))
    = encodeURIComponent "foo+language:rust+stars:>=100"
  /\ search_query empty_world (search_for (Some "") (Some (inject_Z 0)))
    = encodeURIComponent "foo"
  /\ trending_query feb_2026 (mkTrendingInput "day" (Some "c++") (inject_Z 10))
    = inr "created:>2026-01-31+stars:>10+language:c%2B%2B".
Proof.
  destruct (search_query_composition empty_world) as (Hplain & _ & Htrend).
  split; [|split].
  - rewrite (Hplain (search_for (Some "rust") (Some (inject_Z 100))));
      reflexivity.
  - rewrite (Hplain (search_for (Some "") (Some (inject_Z 0)))); reflexivity.
  - rewrite (Htrend feb_2026 _ "2026-01-31"); [reflexivity | vm_compute; reflexivity].
Defined.

(* ===================================================================== *)
(** * The calendar *)
(* ===================================================================== *)

Lemma DayFromYear_epoch : Calendar.DayFromYear 1970 = 0.
Proof. reflexivity. Qed.

(** Years have 365 days, leap years 366. *)
Lemma DayFromYear_succ (y : Z) :
  Calendar.DayFromYear (y + 1) = Calendar.DayFromYear y + Calendar.DaysInYear y.
Proof.
  unfold Calendar.DayFromYear, Calendar.DaysInYear, Calendar.is_leap.
  destruct (Z.eqb_spec (y mod 4) 0), (Z.eqb_spec (y mod 100) 0),
    (Z.eqb_spec (y mod 400) 0); cbn [andb orb negb];
    Z.to_euclidean_division_equations; lia.
Qed.

Lemma DaysInYear_bounds (y : Z) : 365 <= Calendar.DaysInYear y <= 366.
Proof. unfold Calendar.DaysInYear. destruct (Calendar.is_leap y); lia. Qed.

Lemma DayFromYear_mono (y y' : Z) :
  y <= y' -> Calendar.DayFromYear y <= Calendar.DayFromYear y'.
Proof.
  intros H. unfold Calendar.DayFromYear.
  Z.to_euclidean_division_equations; lia.
Qed.

(** [YearFromDay d] is the year that contains day [d]. *)
Lemma YearFromDay_spec (d : Z) :
  Calendar.DayFromYear (Calendar.YearFromDay d) <= d
  < Calendar.DayFromYear (Calendar.YearFromDay d + 1).
Proof.
  unfold Calendar.YearFromDay.
  set (y0 := 1970 + 400 * d / 146097).
  destruct (Z.leb_spec (Calendar.DayFromYear (y0 + 1)) d) as [H1|H1].
  - split; [exact H1|].
    unfold Calendar.DayFromYear in *. subst y0.
    Z.to_euclidean_division_equations; lia.
  - destruct (Z.leb_spec (Calendar.DayFromYear y0) d) as [H0|H0].
    + split; assumption.
    + replace (y0 - 1 + 1) with y0 by lia. split; [|exact H0].
      unfold Calendar.DayFromYear in *. subst y0.
      Z.to_euclidean_division_equations; lia.
Qed.

Lemma YearFromDay_range (d lo hi : Z) :
  Calendar.DayFromYear lo <= d < Calendar.DayFromYear hi ->
  lo <= Calendar.YearFromDay d < hi.
Proof.
  intros [Hlo Hhi]. pose proof (YearFromDay_spec d) as [Hy Hy'].
  split.
  - destruct (Z.le_gt_cases lo (Calendar.YearFromDay d)) as [|Hlt]; [assumption|].
    pose proof (DayFromYear_mono (Calendar.YearFromDay d + 1) lo ltac:(lia)). lia.
  - destruct (Z.lt_ge_cases (Calendar.YearFromDay d) hi) as [|Hge]; [assumption|].
    pose proof (DayFromYear_mono hi (Calendar.YearFromDay d) Hge). lia.
Qed.

(** The day within the year lies in the year. *)
Lemma DayWithinYear_bounds (t : Z) :
  0 <= Calendar.DayWithinYear t < Calendar.DaysInYear (Calendar.YearFromTime t).
Proof.
  unfold Calendar.DayWithinYear, Calendar.YearFromTime.
  pose proof (YearFromDay_spec (Calendar.Day t)) as [H1 H2].
  rewrite DayFromYear_succ in H2. lia.
Qed.

(** The year, month and day of an instant name the day that contains it. *)
Lemma civil_date_of_time (t : Z) :
  let y := Calendar.YearFromTime t in
  let m := Calendar.MonthFromTime t + 1 in
  let d := Calendar.DateFromTime t in
  1 <= m <= 12
  /\ 1 <= d <= Calendar.days_in_month y m
  /\ Calendar.days_from_civil y m d = Calendar.Day t.
Proof.
  intros y m d. subst m d.
  pose proof (DayWithinYear_bounds t) as Hb. fold y in Hb.
  unfold Calendar.days_from_civil, Calendar.DateFromTime, Calendar.MonthFromTime,
    Calendar.InLeapYear, Calendar.days_before_month, Calendar.days_in_month,
    Calendar.DaysInYear in *.
  fold y in Hb |- *.
  assert (Hd : Calendar.Day t = Calendar.DayFromYear y + Calendar.DayWithinYear t)
    by (unfold Calendar.DayWithinYear; fold y; lia).
  rewrite Hd. clear Hd.
  set (n := Calendar.DayWithinYear t) in *.
  destruct (Calendar.is_leap y);
    repeat match goal with
           | |- context [?a <? ?b] => destruct (Z.ltb_spec a b)
           end; cbn; lia.
Qed.

(* ===================================================================== *)
(** * The text of a date *)
(* ===================================================================== *)

Lemma no_char_append (c : ascii) (a b : string) :
  no_char c (a ++ b) = no_char c a && no_char c b.
Proof.
  induction a as [|x a IH]; simpl; [reflexivity|].
  rewrite IH. apply andb_assoc.
Qed.

Lemma digit_char_not_T (n : Z) : Ascii.eqb (digit_char n) "T" = false.
Proof.
  unfold digit_char.
  pose proof (Z.mod_pos_bound n 10 ltac:(lia)) as Hb.
  assert (Hn : (Z.to_nat (n mod 10) < 10)%nat) by lia.
  revert Hn. generalize (Z.to_nat (n mod 10)). intros k Hk.
  do 10 (destruct k as [|k]; [reflexivity|]). lia.
Qed.

Lemma pad_dec_no_T (w : nat) (n : Z) : no_char "T" (pad_dec w n) = true.
Proof.
  revert n. induction w as [|w IH]; intros n; simpl; [reflexivity|].
  rewrite no_char_append, IH. simpl. rewrite digit_char_not_T. reflexivity.
Qed.

Lemma pad_dec_length (w : nat) (n : Z) : String.length (pad_dec w n) = w.
Proof.
  revert n. induction w as [|w IH]; intros n; simpl; [reflexivity|].
  assert (L : forall a b, String.length (a ++ b) = (String.length a + String.length b)%nat).
  { intros a b. induction a as [|x a IHa]; simpl; [reflexivity | rewrite IHa; reflexivity]. }
  rewrite L, IH. simpl. lia.
Qed.

Lemma iso_date_no_T (t : Z) : no_char "T" (Calendar.iso_date t) = true.
Proof.
  unfold Calendar.iso_date, Calendar.iso_year.
  destruct (_ && _); [|destruct (_ <? 0)];
    rewrite ?no_char_append, ?pad_dec_no_T; reflexivity.
Qed.

Lemma split_head_append (c : ascii) (a b : string) :
  no_char c a = true -> split_head c (a ++ String c b) = a.
Proof.
  induction a as [|x a IH]; simpl; intros H.
  - rewrite Ascii.eqb_refl. reflexivity.
  - apply andb_prop in H as [Hx Ha]. apply negb_true_iff in Hx.
    rewrite Hx, (IH Ha). reflexivity.
Qed.

(** [toISOString().split('T')[0]] is the date part. *)
Lemma iso_string_date_part (t : Z) :
  split_head "T" (Calendar.iso_string t) = Calendar.iso_date t.
Proof.
  unfold Calendar.iso_string. apply split_head_append, iso_date_no_T.
Qed.

Lemma TimeClip_int (z : Z) :
  TimeClip (num_of_Z z) = if Z.abs z <=? 8640000000000000 then Some z else None.
Proof.
  unfold TimeClip, num_of_Z, Qle_bool, Qabs, inject_Z. cbn [Qnum Qden].
  rewrite !Z.mul_1_r. destruct (Z.abs z <=? 8640000000000000); [|reflexivity].
  f_equal. unfold Qtrunc, Qlt_bool, Qle_bool, Qfloor, Qopp. cbn [Qnum Qden].
  rewrite !Z.mul_1_r, !Z.div_1_r. destruct (0 <=? z); cbn [negb]; lia.
Qed.

(* ===================================================================== *)
(** * C6: the cutoff date of trending *)
(* ===================================================================== *)

Lemma zod_enum_default_accepts (allowed : list string) (d : string)
  (raw : option string) (s : string) :
  zod_enum_default allowed d raw = inr s ->
  (raw = None /\ s = d) \/ (raw = Some s /\ In s allowed).
Proof.
  unfold zod_enum_default. destruct raw as [x|]; intros H.
  - destruct (existsb (String.eqb x) allowed) eqn:E; [|discriminate].
    inversion H; subst. right. split; [reflexivity|].
    apply existsb_exists in E as (a & Ha & Hxa).
    apply String.eqb_eq in Hxa. subst. exact Ha.
  - inversion H. left. split; reflexivity.
Qed.

Lemma sinceStr_date (now : Z) (tf : string) :
  Z.abs (now - daysAgo tf * 86400000) <= 8640000000000000 ->
  sinceStr now tf = inr (Calendar.iso_date (now - daysAgo tf * 86400000)).
Proof.
  intros H. unfold sinceStr.
  replace (now - daysAgo tf * 24 * 60 * 60 * 1000)
    with (now - daysAgo tf * 86400000) by lia.
  rewrite TimeClip_int. destruct (Z.leb_spec (Z.abs (now - daysAgo tf * 86400000))
                                    8640000000000000); [|lia].
  cbn [Calendar.toISOString bind ret]. rewrite iso_string_date_part. reflexivity.
Qed.

(** C6: an accepted trending request has a lookback window of exactly 1
    day for ["day"], 7 days for ["week"] or an omitted timeframe, 30 days
    for ["month"]; and the cutoff date emitted in the upstream query is the
    date [YYYY-MM-DD] (four, two and two decimal digits) of the day that
    contains the instant [now - N days]: the civil date whose day number is
    [floor ((now - N * 86400000) / 86400000)].  The instant is taken within
    the years 0 to 9999, as every current time is. *)
Theorem trending_cutoff_date :
  (forall raw input,
     trending_schema raw = inr input ->
     (raw_timeframe raw = Some "day" /\ daysAgo (timeframe input) = 1)
     \/ ((raw_timeframe raw = Some "week" \/ raw_timeframe raw = None)
         /\ daysAgo (timeframe input) = 7)
     \/ (raw_timeframe raw = Some "month" /\ daysAgo (timeframe input) = 30))
  /\ (forall now input,
        -62167219200000 <= now - daysAgo (timeframe input) * 86400000
          < 253402300800000 ->
        exists y m d date,
          date = pad_dec 4 y ++ "-" ++ pad_dec 2 m ++ "-" ++ pad_dec 2 d
          /\ String.length date = 10%nat
          /\ 0 <= y <= 9999 /\ 1 <= m <= 12 /\ 1 <= d <= Calendar.days_in_month y m
          /\ Calendar.days_from_civil y m d
             = (now - daysAgo (timeframe input) * 86400000) / 86400000
          /\ sinceStr now (timeframe input) = inr date
          /\ trending_query now input
             = inr ("created:>" ++ date ++ "+stars:>10"
                      ++ match supplied (trending_language input) with
                         | Some l => "+language:" ++ encodeURIComponent l
                         | None => ""
                         end)).
Proof.
  split.
  - intros raw input H. unfold trending_schema in H.
    destruct (zod_enum_default _ _ (raw_timeframe raw)) as [e|tf] eqn:Htf;
      cbn [bind] in H; [discriminate|].
    destruct (zod_limit (raw_limit raw)) as [e|limit]; cbn [bind ret] in H;
      [discriminate|].
    inversion H; subst input; clear H. cbn [timeframe].
    apply zod_enum_default_accepts in Htf as [[Hraw ->]|[Hraw Hin]].
    + right; left. split; [right; exact Hraw | reflexivity].
    + simpl in Hin. destruct Hin as [<-|[<-|[<-|[]]]].
      * left. split; [exact Hraw | reflexivity].
      * right; left. split; [left; exact Hraw | reflexivity].
      * right; right. split; [exact Hraw | reflexivity].
  - intros now input. set (since := now - daysAgo (timeframe input) * 86400000).
    intros Hrange.
    pose proof (civil_date_of_time since) as (Hm & Hd & Hcivil).
    assert (Hy : 0 <= Calendar.YearFromTime since < 10000).
    { apply YearFromDay_range.
      change (Calendar.DayFromYear 0) with (-719528).
      change (Calendar.DayFromYear 10000) with 2932897.
      unfold Calendar.Day, Calendar.msPerDay.
      Z.to_euclidean_division_equations; lia. }
    assert (Hdate : Calendar.iso_date since
                    = pad_dec 4 (Calendar.YearFromTime since) ++ "-"
                        ++ pad_dec 2 (Calendar.MonthFromTime since + 1) ++ "-"
                        ++ pad_dec 2 (Calendar.DateFromTime since)).
    { unfold Calendar.iso_date, Calendar.iso_year.
      destruct (Z.leb_spec 0 (Calendar.YearFromTime since)); [|lia].
      destruct (Z.leb_spec (Calendar.YearFromTime since) 9999); [|lia].
      reflexivity. }
    assert (Hsince : sinceStr now (timeframe input) = inr (Calendar.iso_date since)).
    { apply sinceStr_date. fold since. lia. }
    exists (Calendar.YearFromTime since), (Calendar.MonthFromTime since + 1),
      (Calendar.DateFromTime since), (Calendar.iso_date since).
    split; [exact Hdate|].
    split; [rewrite Hdate; reflexivity|].
    split; [lia|]. split; [exact Hm|]. split; [exact Hd|].
    split; [exact Hcivil|]. split; [exact Hsince|].
    unfold trending_query. rewrite Hsince. cbn [bind ret].
    destruct (supplied (trending_language input));
      rewrite ?append_assoc, ?append_empty_r; reflexivity.
Qed.

Lemma trending_cutoff_date_witness :
  daysAgo "day" = 1 /\ daysAgo "week" = 7 /\ daysAgo "month" = 30
  /\ exists y m d,
       trending_query feb_2026 (mkTrendingInput "week" None (inject_Z 10))
       = inr ("created:>" ++ (pad_dec 4 y ++ "-" ++ pad_dec 2 m ++ "-" ++ pad_dec 2 d)
                ++ "+stars:>10")
       /\ trending_query feb_2026 (mkTrendingInput "week" None (inject_Z 10))
          = inr "created:>2026-01-25+stars:>10"
       /\ Calendar.days_from_civil y m d = 20478
       /\ 1 <= m <= 12 /\ 1 <= d <= Calendar.days_in_month y m.
Proof.
  destruct trending_cutoff_date as [Hwin Hdate].
  split; [|split; [|split]].
  - destruct (Hwin (mkTrendingRaw (Some "day") None None)
                (mkTrendingInput "day" None (inject_Z 10)) eq_refl)
      as [[_ H]|[[[H|H] _]|[H _]]]; [exact H | discriminate ..].
  - destruct (Hwin (mkTrendingRaw None None None)
                (mkTrendingInput "week" None (inject_Z 10)) eq_refl)
      as [[H _]|[[_ H]|[H _]]]; [discriminate | exact H | discriminate].
  - destruct (Hwin (mkTrendingRaw (Some "month") None None)
                (mkTrendingInput "month" None (inject_Z 10)) eq_refl)
      as [[H _]|[[[H|H] _]|[_ H]]]; [discriminate .. | exact H].
  - destruct (Hdate feb_2026 (mkTrendingInput "week" None (inject_Z 10)))
      as (y & m & d & date & Hfmt & _ & _ & Hm & Hd & Hcivil & _ & Hquery);
      [vm_compute; split; [discriminate | reflexivity]|].
    exists y, m, d. subst date. split; [exact Hquery|].
    split; [vm_compute; reflexivity|].
    split; [exact Hcivil|]. split; assumption.
Defined.

(* ===================================================================== *)
(** * Further properties: [fetchGitHub] *)
(* ===================================================================== *)

Lemma append_length (a b : string) :
  String.length (a ++ b) = (String.length a + String.length b)%nat.
Proof. induction a as [|x a IH]; simpl; [reflexivity | rewrite IH; reflexivity]. Qed.

(** [s.slice(0, n)] is the prefix of [s] of length [min n (length s)]. *)
Lemma substring_0_prefix (n : nat) (s : string) :
  String.length (substring 0 n s) = Nat.min n (String.length s)
  /\ exists rest, s = substring 0 n s ++ rest.
Proof.
  revert s. induction n as [|n IH]; intros s.
  - destruct s; simpl; (split; [reflexivity|]); eexists; reflexivity.
  - destruct s as [|c s]; simpl.
    + split; [reflexivity|]. exists "". reflexivity.
    + destruct (IH s) as [Hl [rest Hr]]. split; [rewrite Hl; reflexivity|].
      exists rest. rewrite <- Hr. reflexivity.
Qed.

(** X1: the outcomes of [fetchGitHub].  A rejected [fetch] rejects with the
    same error.  On a response that is not [ok] the JSON body is not read:
    when reading the text rejects, that rejection is the result, and
    otherwise the result is an [Error] whose message is
    ["GitHub API error: <status> - <excerpt>"], the excerpt being the
    first 200 characters of the text at most.  An [ok] response gives what
    parsing its body gives, and its text is not read. *)
Theorem fetchGitHub_outcomes (w : World) (path : string) :
  (forall e, http_get w (GITHUB_API ++ path) = inl e -> fetchGitHub w path = inl e)
  /\ (forall r, http_get w (GITHUB_API ++ path) = inr r -> ok r = true ->
        fetchGitHub w path = json_body r)
  /\ (forall r e, http_get w (GITHUB_API ++ path) = inr r -> ok r = false ->
        text r = inl e -> fetchGitHub w path = inl e)
  /\ (forall r body, http_get w (GITHUB_API ++ path) = inr r -> ok r = false ->
        text r = inr body ->
        exists excerpt rest,
          fetchGitHub w path
          = inl (Error ("GitHub API error: " ++ Z_to_string (status r) ++ " - "
                          ++ excerpt))
          /\ body = excerpt ++ rest
          /\ String.length excerpt = Nat.min 200 (String.length body)).
Proof.
  unfold fetchGitHub. split; [|split; [|split]].
  - intros e ->. reflexivity.
  - intros r -> Hok. cbn [bind]. rewrite Hok. reflexivity.
  - intros r e -> Hok Htext. cbn [bind]. rewrite Hok, Htext. reflexivity.
  - intros r body -> Hok Htext. cbn [bind]. rewrite Hok, Htext. cbn [negb bind].
    destruct (substring_0_prefix 200 body) as [Hl [rest Hr]].
    exists (substring 0 200 body), rest. repeat split; assumption.
Qed.

Lemma fetchGitHub_outcomes_witness :
  fetchGitHub empty_world "/repos/a/a" = inl (Error "GitHub API error: 404 - Not Found")
  /\ fetchGitHub b_only_world "/repos/b/b" = inr repo_b
  /\ fetchGitHub (mkWorld (fun _ => ret (mkResponse false 502 (throw (TypeError "terminated"))
                                          (ret VNull)))
                    (fun _ => 0) plain_engine) "/repos/a/a"
     = inl (TypeError "terminated").
Proof.
  destruct (fetchGitHub_outcomes empty_world "/repos/a/a") as (_ & _ & _ & Hbad).
  destruct (fetchGitHub_outcomes b_only_world "/repos/b/b") as (_ & Hok & _ & _).
  split; [|split].
  - destruct (Hbad not_found "Not Found" eq_refl eq_refl eq_refl)
      as (excerpt & rest & Hrun & _ & _).
    rewrite Hrun. vm_compute in Hrun. inversion Hrun as [Hmsg].
    rewrite Hmsg. reflexivity.
  - rewrite (Hok (mkResponse true 200 (ret "") (ret repo_b)));
      [reflexivity | vm_compute; reflexivity | reflexivity].
  - match goal with
    | |- fetchGitHub ?w ?p = _ =>
        destruct (fetchGitHub_outcomes w p) as (_ & _ & Hrej & _)
    end.
    eapply Hrej; reflexivity.
Defined.

(* ===================================================================== *)
(** * Further properties: [formatRepo] *)
(* ===================================================================== *)

(** X2: [formatRepo] throws exactly on [null] and [undefined], and then a
    TypeError raised by the first property read; on every other document,
    an array, a string or a number included, it returns a record of the
    nineteen canonical names. *)
Theorem formatRepo_throws_iff_nullish (repo : value) :
  (nullish repo = true ->
   exists msg, formatRepo repo = inl (TypeError msg))
  /\ (nullish repo = false ->
      exists out, formatRepo repo = inr (VObj out) /\ map fst out = canonical_fields)
  /\ ((exists e, formatRepo repo = inl e) <-> nullish repo = true).
Proof.
  assert (Hbad : nullish repo = true -> exists msg, formatRepo repo = inl (TypeError msg)).
  { intros N. unfold formatRepo. destruct repo; try discriminate;
      eexists; reflexivity. }
  assert (Hok : nullish repo = false ->
                exists out, formatRepo repo = inr (VObj out)
                            /\ map fst out = canonical_fields).
  { intros N. exists (formatRepo_fields repo).
    split; [apply formatRepo_defined; exact N | reflexivity]. }
  split; [exact Hbad|]. split; [exact Hok|]. split.
  - intros [e He]. destruct (nullish repo); [reflexivity|].
    destruct (Hok eq_refl) as (out & Hout & _). congruence.
  - intros N. destruct (Hbad N) as [msg Hmsg]. eexists. exact Hmsg.
Qed.

Lemma formatRepo_throws_iff_nullish_witness :
  (exists msg, formatRepo VNull = inl (TypeError msg))
  /\ (exists out, formatRepo (VArr [int 1]) = inr (VObj out)
                  /\ map fst out = canonical_fields).
Proof.
  destruct (formatRepo_throws_iff_nullish VNull) as (Hbad & _ & _).
  destruct (formatRepo_throws_iff_nullish (VArr [int 1])) as (_ & Hok & _).
  split; [apply Hbad | apply Hok]; reflexivity.
Defined.

Lemma js_or_truthy (v d : value) :
  js_or v d = d \/ (js_or v d = v /\ truthy v = true).
Proof. unfold js_or. destruct (truthy v); [right; split; reflexivity | left; reflexivity]. Qed.

(** X3: in a record [formatRepo] returns, the three defaulted fields never
    hold a falsy value other than their default: [topics] is truthy,
    [homepage] and [license] are [null] or truthy.  An upstream homepage
    that is the empty string, [0] or [false] comes out as [null], and a
    truthy one comes out unchanged. *)
Theorem formatRepo_defaults_replace_falsy (repo out : value) :
  formatRepo repo = inr out ->
  truthy (get_opt out "topics") = true
  /\ (get_opt out "homepage" = VNull \/ truthy (get_opt out "homepage") = true)
  /\ (get_opt out "license" = VNull \/ truthy (get_opt out "license") = true)
  /\ (truthy (get_opt repo "homepage") = false -> get_opt out "homepage" = VNull)
  /\ (truthy (get_opt repo "homepage") = true ->
      get_opt out "homepage" = get_opt repo "homepage")
  /\ (truthy (get_opt repo "topics") = false -> get_opt out "topics" = VArr []).
Proof.
  intros Hrun. destruct (nullish repo) eqn:N.
  - destruct (formatRepo_nullish repo N) as [e He]. congruence.
  - rewrite (formatRepo_defined repo N) in Hrun. inversion Hrun; subst out; clear Hrun.
    change (get_opt (VObj (formatRepo_fields repo)) "topics")
      with (js_or (get_opt repo "topics") (VArr [])).
    change (get_opt (VObj (formatRepo_fields repo)) "homepage")
      with (js_or (get_opt repo "homepage") VNull).
    change (get_opt (VObj (formatRepo_fields repo)) "license")
      with (js_or (get_opt (get_opt repo "license") "spdx_id") VNull).
    split; [|split; [|split; [|split; [|split]]]].
    + destruct (js_or_truthy (get_opt repo "topics") (VArr [])) as [->|[-> T]];
        [reflexivity | exact T].
    + destruct (js_or_truthy (get_opt repo "homepage") VNull) as [->|[-> T]];
        [left; reflexivity | right; exact T].
    + destruct (js_or_truthy (get_opt (get_opt repo "license") "spdx_id") VNull)
        as [->|[-> T]]; [left; reflexivity | right; exact T].
    + intros T. unfold js_or. rewrite T. reflexivity.
    + intros T. unfold js_or. rewrite T. reflexivity.
    + intros T. unfold js_or. rewrite T. reflexivity.
Qed.

Lemma formatRepo_defaults_replace_falsy_witness :
  exists out,
    formatRepo (VObj [("homepage", VStr ""); ("topics", VArr [VStr "cli"])]) = inr out
    /\ get_opt out "homepage" = VNull
    /\ truthy (get_opt out "topics") = true.
Proof.
  eexists. split; [reflexivity|].
  destruct (formatRepo_defaults_replace_falsy
              (VObj [("homepage", VStr ""); ("topics", VArr [VStr "cli"])]) _ eq_refl)
    as (Ht & _ & _ & Hh & _ & _).
  split; [apply Hh; reflexivity | exact Ht].
Defined.

(* ===================================================================== *)
(** * Further properties: the results of trending and search *)
(* ===================================================================== *)

Lemma mapM_fails {A B} (f : A -> M B) (l : list A) :
  Exists (fun a => exists e, f a = inl e) l -> exists e, mapM f l = inl e.
Proof.
  induction 1 as [a r [e He]|a r _ [e He]]; simpl.
  - rewrite He. exists e. reflexivity.
  - destruct (f a) as [e'|b]; cbn [bind]; [exists e'; reflexivity|].
    rewrite He. exists e. reflexivity.
Qed.

(** X4: the normalised results of a search.  When the upstream document
    carries an array of items none of which is [null], the results are the
    number of items, the upstream total and the normalised items, in order;
    a single [null] item fails the whole request. *)
Theorem search_results_all_or_nothing (data : value) (items : list value) :
  get_prop data "items" = inr (VArr items) ->
  (forallb (fun r => negb (nullish r)) items = true ->
   search_results data
   = inr [("count", int (Z.of_nat (List.length items)));
          ("totalMatches", get_opt data "total_count");
          ("repos", VArr (map (fun r => VObj (formatRepo_fields r)) items))])
  /\ (existsb nullish items = true -> exists e, search_results data = inl e).
Proof.
  intros Hitems.
  assert (N : nullish data = false).
  { destruct data; try reflexivity; discriminate. }
  unfold search_results. rewrite Hitems. cbn [bind get_prop String.eqb Ascii.eqb Bool.eqb ret].
  rewrite (get_prop_defined data "total_count" N). cbn [bind ret call_map].
  split.
  - intros Hall. rewrite forallb_forall in Hall.
    rewrite (mapM_pure formatRepo (fun r => VObj (formatRepo_fields r))).
    + reflexivity.
    + intros r Hr. apply formatRepo_defined. apply negb_true_iff. auto.
  - intros Hex. apply existsb_exists in Hex as (r & Hr & Hn).
    destruct (mapM_fails formatRepo items) as [e He].
    { apply Exists_exists. exists r. split; [exact Hr|]. apply formatRepo_nullish, Hn. }
    rewrite He. exists e. reflexivity.
Qed.

Lemma search_results_all_or_nothing_witness :
  (exists res, search_results (VObj [("items", VArr four_items); ("total_count", int 4)])
               = inr res /\ lookup "count" res = Some (int 4))
  /\ (exists e, search_results (VObj [("items", VArr [repo_b; VNull])]) = inl e).
Proof.
  split.
  - destruct (search_results_all_or_nothing
                (VObj [("items", VArr four_items); ("total_count", int 4)]) four_items
                eq_refl) as [Hok _].
    eexists. split; [apply Hok; reflexivity | reflexivity].
  - destruct (search_results_all_or_nothing
                (VObj [("items", VArr [repo_b; VNull])]) [repo_b; VNull] eq_refl)
      as [_ Hbad].
    apply Hbad. reflexivity.
Defined.

Lemma search_results_shape (data : value) (res : list (string * value)) :
  search_results data = inr res ->
  exists items repos total,
    res = [("count", VNum (array_length items)); ("totalMatches", total);
           ("repos", VArr repos)]
    /\ get_prop data "items" = inr (VArr items)
    /\ List.length repos = List.length items.
Proof.
  unfold search_results. intros H.
  destruct (get_prop data "items") as [e|items] eqn:Hitems; cbn [bind] in H;
    [discriminate|].
  destruct (get_prop items "length") as [e|count] eqn:Hcount; cbn [bind] in H;
    [discriminate|].
  destruct (get_prop data "total_count") as [e|total]; cbn [bind] in H; [discriminate|].
  destruct items as [| | | | |l|]; cbn [call_map bind] in H; try discriminate.
  destruct (mapM formatRepo l) as [e|repos] eqn:Hmap; cbn [bind ret] in H;
    [discriminate|].
  inversion H; subst res; clear H.
  cbn in Hcount. inversion Hcount; subst count.
  exists l, repos, total. split; [reflexivity|]. split; [reflexivity|].
  apply (mapM_length _ _ _ Hmap).
Qed.

(** X5: whenever trending or search returns, [repos] is an array and
    [count] is the number of its entries. *)
Theorem search_count_is_repos_length (w : World) :
  (forall raw out, trending w raw = inr out ->
     exists repos,
       path_get out ["output"; "repos"] = VArr repos
       /\ path_get out ["output"; "count"] = int (Z.of_nat (List.length repos)))
  /\ (forall raw out, search w raw = inr out ->
        exists repos,
          path_get out ["output"; "repos"] = VArr repos
          /\ path_get out ["output"; "count"] = int (Z.of_nat (List.length repos))).
Proof.
  split; intros raw out H.
  - unfold trending in H.
    destruct (trending_schema raw) as [e|input]; cbn [bind] in H; [discriminate|].
    unfold trending_handler in H.
    destruct (trending_path w input) as [e|path]; cbn [bind] in H; [discriminate|].
    destruct (fetchGitHub w path) as [e|data]; cbn [bind] in H; [discriminate|].
    destruct (search_results data) as [e|res] eqn:Hres; cbn [bind ret] in H;
      [discriminate|].
    apply search_results_shape in Hres as (items & repos & total & -> & _ & Hlen).
    inversion H; subst out; clear H.
    exists repos. split; [reflexivity|].
    cbn. unfold array_length, int. rewrite Hlen. reflexivity.
  - unfold search in H.
    destruct (search_schema raw) as [e|input]; cbn [bind] in H; [discriminate|].
    unfold search_handler in H.
    destruct (fetchGitHub w (search_path w input)) as [e|data]; cbn [bind] in H;
      [discriminate|].
    destruct (search_results data) as [e|res] eqn:Hres; cbn [bind ret] in H;
      [discriminate|].
    apply search_results_shape in Hres as (items & repos & total & -> & _ & Hlen).
    inversion H; subst out; clear H.
    exists repos. split; [reflexivity|].
    cbn. unfold array_length, int. rewrite Hlen. reflexivity.
Qed.

Lemma search_count_is_repos_length_witness :
  (exists out repos,
     trending search_world (mkTrendingRaw None None None) = inr out
     /\ path_get out ["output"; "repos"] = VArr repos
     /\ path_get out ["output"; "count"] = int (Z.of_nat (List.length repos)))
  /\ (exists out repos,
        search search_world (mkSearchRaw "foo" None None None None) = inr out
        /\ path_get out ["output"; "repos"] = VArr repos
        /\ path_get out ["output"; "count"] = int (Z.of_nat (List.length repos))).
Proof.
  destruct (search_count_is_repos_length search_world) as [Ht Hs]. split.
  - destruct (trending search_world (mkTrendingRaw None None None)) as [e|out] eqn:Hrun;
      [vm_compute in Hrun; discriminate|].
    destruct (Ht _ out Hrun) as (repos & Hr & Hc).
    exists out, repos. repeat split; assumption.
  - destruct (search search_world (mkSearchRaw "foo" None None None None))
      as [e|out] eqn:Hrun; [vm_compute in Hrun; discriminate|].
    destruct (Hs _ out Hrun) as (repos & Hr & Hc).
    exists out, repos. repeat split; assumption.
Defined.

(* ===================================================================== *)
(** * Further properties: percent-encoding of the queries *)
(* ===================================================================== *)

Lemma all_chars_append (p : ascii -> bool) (a b : string) :
  all_chars p (a ++ b) = all_chars p a && all_chars p b.
Proof.
  induction a as [|x a IH]; simpl; [reflexivity|].
  rewrite IH. apply andb_assoc.
Qed.

Lemma percent_alphabet (c : ascii) : all_chars uri_encoded (percent c) = true.
Proof. destruct c as [[] [] [] [] [] [] [] []]; reflexivity. Qed.

Lemma encodeURIComponent_alphabet (s : string) :
  all_chars uri_encoded (encodeURIComponent s) = true.
Proof.
  induction s as [|c r IH]; simpl; [reflexivity|].
  rewrite all_chars_append, IH, andb_true_r.
  destruct (uri_unreserved c) eqn:U; [|apply percent_alphabet].
  simpl. unfold uri_encoded. rewrite U. reflexivity.
Qed.

Lemma all_chars_no_char (p : ascii -> bool) (c : ascii) (s : string) :
  all_chars p s = true -> p c = false -> no_char c s = true.
Proof.
  intros Hs Hc. induction s as [|x r IH]; simpl in *; [reflexivity|].
  apply andb_prop in Hs as [Hx Hr]. rewrite (IH Hr), andb_true_r.
  apply negb_true_iff. destruct (Ascii.eqb_spec x c); [congruence | reflexivity].
Qed.

(** X7: the [q] parameter of a search consists of unreserved characters and
    percent escapes only, whatever the query text: it holds none of
    [& # = ? /] and no space, so the text of a request cannot end the
    parameter or add another one. *)
Theorem search_query_is_escaped (w : World) (input : search_input) :
  all_chars uri_encoded (search_query w input) = true
  /\ forallb (fun c => no_char c (search_query w input)) delimiters = true.
Proof.
  assert (H : all_chars uri_encoded (search_query w input) = true)
    by apply encodeURIComponent_alphabet.
  split; [exact H|].
  apply forallb_forall. intros c Hc.
  apply (all_chars_no_char uri_encoded); [exact H|].
  simpl in Hc. repeat (destruct Hc as [<-|Hc]; [reflexivity|]). contradiction.
Qed.

Lemma unpercent (c : ascii) :
  ascii_of_nat (16 * hex_value (hex_char (nat_of_ascii c / 16))
                + hex_value (hex_char (nat_of_ascii c mod 16))) = c.
Proof. destruct c as [[] [] [] [] [] [] [] []]; reflexivity. Qed.

Lemma uri_decode_encode (s : string) : uri_decode (encodeURIComponent s) = s.
Proof.
  induction s as [|c r IH]; [reflexivity|].
  cbn [encodeURIComponent]. destruct (uri_unreserved c) eqn:U.
  - cbn [append uri_decode].
    destruct (Ascii.eqb_spec c "%") as [->|_]; [discriminate U|].
    rewrite IH. reflexivity.
  - unfold percent. cbn [append uri_decode Ascii.eqb Bool.eqb].
    rewrite IH, unpercent. reflexivity.
Qed.

(** X8: percent-encoding loses nothing: two texts with the same encoding
    are the same text, so two searches send the same [q] parameter only
    when their composed query texts are equal. *)
Theorem search_query_injective (w : World) (a b : search_input) :
  search_query w a = search_query w b -> search_q w a = search_q w b.
Proof.
  unfold search_query. intros H.
  rewrite <- (uri_decode_encode (search_q w a)), H. apply uri_decode_encode.
Qed.

Lemma search_query_injective_witness :
  search_q empty_world (search_for (Some "go") None)
  = search_q empty_world (search_for (Some "go") (Some (inject_Z 0))).
Proof.
  apply (search_query_injective empty_world). reflexivity.
Defined.

Lemma digit_char_is_digit (n : Z) : is_digit (digit_char n) = true.
Proof.
  unfold digit_char.
  pose proof (Z.mod_pos_bound n 10 ltac:(lia)) as Hb.
  assert (Hn : (Z.to_nat (n mod 10) < 10)%nat) by lia.
  revert Hn. generalize (Z.to_nat (n mod 10)). intros k Hk.
  do 10 (destruct k as [|k]; [reflexivity|]). lia.
Qed.

Lemma pad_dec_no_char (c : ascii) (w : nat) (n : Z) :
  is_digit c = false -> no_char c (pad_dec w n) = true.
Proof.
  intros Hc. revert n. induction w as [|w IH]; intros n; simpl; [reflexivity|].
  rewrite no_char_append, IH. simpl. rewrite andb_true_r.
  apply negb_true_iff. destruct (Ascii.eqb_spec (digit_char n) c) as [E|]; [|reflexivity].
  rewrite <- E, digit_char_is_digit in Hc. discriminate.
Qed.

Lemma iso_date_no_char (c : ascii) (t : Z) :
  is_digit c = false -> Ascii.eqb "-" c = false -> Ascii.eqb "+" c = false ->
  no_char c (Calendar.iso_date t) = true.
Proof.
  intros Hd Hm Hp. unfold Calendar.iso_date, Calendar.iso_year.
  destruct (_ && _); [|destruct (_ <? 0)];
    rewrite ?no_char_append, ?pad_dec_no_char by exact Hd;
    cbn [no_char]; rewrite ?Hm, ?Hp; reflexivity.
Qed.

Lemma sinceStr_is_date (now : Z) (tf since : string) :
  sinceStr now tf = inr since ->
  since = Calendar.iso_date (now - daysAgo tf * 24 * 60 * 60 * 1000).
Proof.
  unfold sinceStr. rewrite TimeClip_int.
  destruct (Z.abs _ <=? _); cbn [Calendar.toISOString bind ret]; [|discriminate].
  rewrite iso_string_date_part. intros H. inversion H. reflexivity.
Qed.

(** X9: whenever the trending query can be built, it holds no [&], no [#]
    and no space, whatever the language text: the cutoff date is made of
    digits and dashes and the language token is percent-encoded. *)
Theorem trending_query_has_no_delimiter (now : Z) (input : trending_input)
  (q : string) :
  trending_query now input = inr q ->
  forallb (fun c => no_char c q) ["&"; "#"; " "]%char = true.
Proof.
  unfold trending_query. intros H.
  destruct (sinceStr now (timeframe input)) as [e|since] eqn:Hs; cbn [bind ret] in H;
    [discriminate|].
  apply sinceStr_is_date in Hs. subst since.
  assert (Hlang : forall l c, uri_encoded c = false ->
                    no_char c (encodeURIComponent l) = true).
  { intros l c Hc. apply (all_chars_no_char uri_encoded);
      [apply encodeURIComponent_alphabet | exact Hc]. }
  destruct (supplied (trending_language input)) as [l|];
    inversion H; subst q; clear H; cbn [forallb];
    repeat (cbn [no_char Ascii.eqb Bool.eqb negb andb]; rewrite ?no_char_append);
    rewrite ?Hlang by reflexivity;
    rewrite !iso_date_no_char by reflexivity; reflexivity.
Qed.

Lemma trending_query_has_no_delimiter_witness :
  exists q,
    trending_query feb_2026 (mkTrendingInput "day" (Some "c & c#") (inject_Z 10)) = inr q
    /\ forallb (fun c => no_char c q) ["&"; "#"; " "]%char = true.
Proof.
  eexists. split; [vm_compute; reflexivity|].
  apply (trending_query_has_no_delimiter feb_2026
           (mkTrendingInput "day" (Some "c & c#") (inject_Z 10))).
  vm_compute. reflexivity.
Defined.

(* ===================================================================== *)
(** * Further properties: releases *)
(* ===================================================================== *)

Lemma mapM_Forall2 {A B} (f : A -> M B) (l : list A) (l' : list B) :
  mapM f l = inr l' -> Forall2 (fun a b => f a = inr b) l l'.
Proof.
  revert l'. induction l as [|a r IH]; simpl; intros l' H.
  - inversion H. constructor.
  - destruct (f a) as [e|b] eqn:Hb; cbn [bind] in H; [discriminate|].
    destruct (mapM f r) as [e|bs]; cbn [bind ret] in H; [discriminate|].
    inversion H; subst l'. constructor; [exact Hb | apply IH; reflexivity].
Qed.

Lemma call_map_array (v : value) (f : value -> M value) (out : value) :
  call_map v f = inr out ->
  exists l l', v = VArr l /\ out = VArr l' /\ mapM f l = inr l'.
Proof.
  destruct v; cbn [call_map]; try discriminate. intros H.
  destruct (mapM f items) as [e|l'] eqn:Hmap; cbn [bind ret] in H; [discriminate|].
  inversion H. exists items, l'. split; [reflexivity|]. split; [reflexivity|].
  exact Hmap.
Qed.

(** X10: whenever releases returns, [releases] holds one summary per
    upstream release, in order, [count] is their number, and [repo] is the
    requested name. *)
Theorem releases_count_is_list_length (w : World) (raw : releases_raw) (out : value) :
  releases w raw = inr out ->
  exists input upstream summaries,
    releases_schema raw = inr input
    /\ fetchGitHub w (releases_path w input) = inr (VArr upstream)
    /\ path_get out ["output"; "releases"] = VArr summaries
    /\ Forall2 (fun r s => release_summary r = inr s) upstream summaries
    /\ path_get out ["output"; "count"] = int (Z.of_nat (List.length summaries))
    /\ path_get out ["output"; "repo"] = VStr (raw_releases_repo raw).
Proof.
  unfold releases. intros H.
  destruct (releases_schema raw) as [e|input] eqn:Hschema; cbn [bind] in H;
    [discriminate|].
  assert (Hrepo : releases_repo input = raw_releases_repo raw).
  { unfold releases_schema in Hschema.
    destruct (zod_limit _); cbn [bind ret] in Hschema; [discriminate|].
    inversion Hschema. reflexivity. }
  unfold releases_handler in H.
  destruct (fetchGitHub w (releases_path w input)) as [e|list] eqn:Hfetch;
    cbn [bind] in H; [discriminate|].
  destruct (get_prop list "length") as [e|count] eqn:Hcount; cbn [bind] in H;
    [discriminate|].
  destruct (call_map list release_summary) as [e|summaries] eqn:Hmap;
    cbn [bind ret] in H; [discriminate|].
  apply call_map_array in Hmap as (l & l' & -> & -> & Hmap).
  cbn in Hcount. inversion Hcount; subst count.
  inversion H; subst out; clear H.
  exists input, l, l'. split; [reflexivity|]. split; [exact Hfetch|].
  split; [reflexivity|]. split; [apply mapM_Forall2; exact Hmap|].
  split; [|cbn; rewrite Hrepo; reflexivity].
  cbn. unfold array_length, int. rewrite (mapM_length _ _ _ Hmap). reflexivity.
Qed.

Lemma releases_count_is_list_length_witness :
  exists out summaries,
    releases releases_world (mkReleasesRaw "b/b" None) = inr out
    /\ path_get out ["output"; "releases"] = VArr summaries
    /\ path_get out ["output"; "count"] = int (Z.of_nat (List.length summaries)).
Proof.
  destruct (releases releases_world (mkReleasesRaw "b/b" None)) as [e|out] eqn:Hrun;
    [vm_compute in Hrun; discriminate|].
  destruct (releases_count_is_list_length _ _ out Hrun)
    as (input & upstream & summaries & _ & _ & Hlist & _ & Hcount & _).
  exists out, summaries. repeat split; assumption.
Defined.

Lemma release_summary_shape (r out : value) :
  release_summary r = inr out ->
  nullish r = false
  /\ exists short summaries,
       (if nullish (get_opt r "body") then ret VUndefined
        else call_slice0 (get_opt r "body") 500) = inr short
       /\ (if nullish (get_opt r "assets") then ret VUndefined
           else call_map (get_opt r "assets") asset_summary) = inr summaries
       /\ get_opt out "body" = short
       /\ get_opt out "assets" = js_or summaries (VArr []).
Proof.
  intros H. destruct (nullish r) eqn:N.
  - unfold release_summary in H. destruct (get_prop_fails r "tag_name" N) as [e He].
    rewrite He in H. discriminate.
  - split; [reflexivity|]. unfold release_summary in H.
    repeat (rewrite (get_prop_defined r) in H by exact N; cbn [bind ret] in H).
    destruct (if nullish (get_opt r "body") then _ else _) as [e|short];
      cbn [bind] in H; [discriminate|].
    destruct (if nullish (get_opt r "assets") then _ else _) as [e|summaries];
      cbn [bind ret] in H; [discriminate|].
    inversion H; subst out. exists short, summaries. repeat split; reflexivity.
Qed.

(** X11: the body of a release summary is the first 500 characters of the
    upstream body at most. *)
Theorem release_body_is_truncated (r out : value) (body : string) :
  get_opt r "body" = VStr body ->
  release_summary r = inr out ->
  exists short rest,
    get_opt out "body" = VStr short
    /\ body = short ++ rest
    /\ String.length short = Nat.min 500 (String.length body).
Proof.
  intros Hbody Hrun.
  apply release_summary_shape in Hrun as (_ & short & summaries & Hshort & _ & Hb & _).
  rewrite Hbody in Hshort. cbn in Hshort. inversion Hshort as [Hs].
  destruct (substring_0_prefix 500 body) as [Hl [rest Hr]].
  exists (substring 0 500 body), rest. rewrite Hb, <- Hs. repeat split; assumption.
Qed.

Lemma release_body_is_truncated_witness :
  exists out short,
    release_summary (VObj [("tag_name", VStr "v2"); ("body", VStr (repeat_char "x" 600))])
    = inr out
    /\ get_opt out "body" = VStr short
    /\ String.length short = 500%nat.
Proof.
  destruct (release_summary
              (VObj [("tag_name", VStr "v2"); ("body", VStr (repeat_char "x" 600))]))
    as [e|out] eqn:Hrun; [vm_compute in Hrun; discriminate|].
  destruct (release_body_is_truncated
              (VObj [("tag_name", VStr "v2"); ("body", VStr (repeat_char "x" 600))])
              out (repeat_char "x" 600) eq_refl Hrun)
    as (short & rest & Hb & _ & Hl).
  exists out, short. split; [reflexivity|]. split; [exact Hb|].
  rewrite Hl. vm_compute. reflexivity.
Defined.

(** X12: in every release summary [assets] is an array: empty when the
    upstream release has no assets (absent or [null]), and with one
    summary per upstream asset otherwise. *)
Theorem release_assets_is_always_a_list (r out : value) :
  release_summary r = inr out ->
  exists summaries,
    get_opt out "assets" = VArr summaries
    /\ (nullish (get_opt r "assets") = true -> summaries = [])
    /\ (forall assets, get_opt r "assets" = VArr assets ->
          Forall2 (fun a s => asset_summary a = inr s) assets summaries).
Proof.
  intros Hrun.
  apply release_summary_shape in Hrun as (_ & short & summaries & _ & Hassets & _ & Ha).
  rewrite Ha. destruct (nullish (get_opt r "assets")) eqn:N.
  - inversion Hassets; subst summaries. exists []. split; [reflexivity|].
    split; [reflexivity|]. intros assets E. rewrite E in N. discriminate.
  - apply call_map_array in Hassets as (l & l' & Hl & -> & Hmap).
    exists l'. split; [reflexivity|]. split; [discriminate|].
    intros assets E. rewrite Hl in E. inversion E; subst assets.
    apply mapM_Forall2. exact Hmap.
Qed.

Lemma release_assets_is_always_a_list_witness :
  exists out,
    release_summary (VObj [("tag_name", VStr "v1"); ("body", VNull)]) = inr out
    /\ get_opt out "assets" = VArr [].
Proof.
  destruct (release_summary (VObj [("tag_name", VStr "v1"); ("body", VNull)]))
    as [e|out] eqn:Hrun; [vm_compute in Hrun; discriminate|].
  destruct (release_assets_is_always_a_list _ out Hrun) as (summaries & Ha & Hnone & _).
  exists out. split; [reflexivity|]. rewrite Ha, Hnone; reflexivity.
Defined.

(* ===================================================================== *)
(** * Further properties: the samples of the overview *)
(* ===================================================================== *)

(** X13: a sample of the overview has the four fields [name], [stars],
    [language] and [description], the first three copied from the upstream
    item and the description cut to its first 100 characters at most. *)
Theorem overview_sample_description_is_truncated (r out : value) (text : string) :
  get_opt r "description" = VStr text ->
  overview_sample r = inr out ->
  exists short rest,
    out = VObj [("name", get_opt r "full_name");
                ("stars", get_opt r "stargazers_count");
                ("language", get_opt r "language");
                ("description", VStr short)]
    /\ text = short ++ rest
    /\ String.length short = Nat.min 100 (String.length text).
Proof.
  intros Htext Hrun.
  assert (N : nullish r = false).
  { destruct r; try reflexivity; discriminate. }
  unfold overview_sample in Hrun.
  repeat (rewrite (get_prop_defined r) in Hrun by exact N; cbn [bind ret] in Hrun).
  rewrite Htext in Hrun. cbn in Hrun. inversion Hrun; subst out.
  destruct (substring_0_prefix 100 text) as [Hl [rest Hr]].
  exists (substring 0 100 text), rest. repeat split; assumption.
Qed.

Lemma overview_sample_description_is_truncated_witness :
  exists out short,
    overview_sample (VObj [("full_name", VStr "a/a");
                           ("description", VStr (repeat_char "d" 150))]) = inr out
    /\ get_opt out "description" = VStr short
    /\ String.length short = 100%nat.
Proof.
  destruct (overview_sample (VObj [("full_name", VStr "a/a");
                                   ("description", VStr (repeat_char "d" 150))]))
    as [e|out] eqn:Hrun; [vm_compute in Hrun; discriminate|].
  destruct (overview_sample_description_is_truncated
              (VObj [("full_name", VStr "a/a");
                     ("description", VStr (repeat_char "d" 150))])
              out (repeat_char "d" 150) eq_refl Hrun)
    as (short & rest & Hout & _ & Hl).
  exists out, short. split; [reflexivity|]. split; [rewrite Hout; reflexivity|].
  rewrite Hl. vm_compute. reflexivity.
Defined.

(* ===================================================================== *)
(** * Further properties: repo-stats *)
(* ===================================================================== *)

Lemma repo_stats_handler_fetched (w : World) (repo : string) (data : value) :
  fetchGitHub w ("/repos/" ++ repo) = inr data ->
  repo_stats_handler w repo
  = repo_stats_output w data
      (or_default (fetchGitHub w ("/repos/" ++ repo ++ "/contributors?per_page=10"))
         (VArr []))
      (or_default (fetchGitHub w ("/repos/" ++ repo ++ "/languages")) (VObj [])).
Proof.
  intros Hr. unfold repo_stats_handler, Promise_all3.
  rewrite Hr, !catch_default_or_default. reflexivity.
Qed.

Lemma repo_stats_handler_returns (w : World) (repo : string) (out : value) :
  repo_stats_handler w repo = inr out ->
  exists data, fetchGitHub w ("/repos/" ++ repo) = inr data /\ nullish data = false.
Proof.
  intros H. destruct (fetchGitHub w ("/repos/" ++ repo)) as [e|data] eqn:Hr.
  - unfold repo_stats_handler, Promise_all3 in H. rewrite Hr in H. discriminate.
  - exists data. split; [reflexivity|].
    rewrite (repo_stats_handler_fetched w repo data Hr) in H.
    destruct (nullish data) eqn:N; [|reflexivity].
    unfold repo_stats_output in H. destruct (formatRepo_nullish data N) as [e He].
    rewrite He in H. discriminate.
Qed.

(** X14: whenever repo-stats returns, [topContributors] holds the summaries
    of the first five upstream contributors, in order: five entries when
    the upstream lists five or more, as many as it lists otherwise (none
    when the contributors fetch failed). *)
Theorem repo_stats_top_five_contributors (w : World) (repo : string) (out : value) :
  repo_stats_handler w repo = inr out ->
  exists contributors top,
    or_default (fetchGitHub w ("/repos/" ++ repo ++ "/contributors?per_page=10"))
      (VArr []) = VArr contributors
    /\ path_get out ["output"; "topContributors"] = VArr top
    /\ Forall2 (fun c s => contributor_summary c = inr s) (firstn 5 contributors) top
    /\ List.length top = Nat.min 5 (List.length contributors).
Proof.
  intros H. destruct (repo_stats_handler_returns w repo out H) as (data & Hr & _).
  rewrite (repo_stats_handler_fetched w repo data Hr) in H.
  apply repo_stats_output_fields in H as (_ & top & Hslice & Hmap).
  apply call_map_array in Hmap as (l & l' & -> & Htop & Hmap).
  destruct (or_default _ (VArr [])) as [| | | | |cs|]; cbn [call_slice0] in Hslice;
    try discriminate.
  assert (Hl : l = firstn 5 cs) by (unfold ret in Hslice; congruence).
  subst l. exists cs, l'.
  split; [reflexivity|]. split; [exact Htop|].
  split; [apply mapM_Forall2; exact Hmap|].
  rewrite (mapM_length _ _ _ Hmap). apply length_firstn.
Qed.

Lemma repo_stats_top_five_contributors_witness :
  exists out top,
    repo_stats_handler crowded_world "a/a" = inr out
    /\ path_get out ["output"; "topContributors"] = VArr top
    /\ List.length top = 5%nat.
Proof.
  destruct (repo_stats_handler crowded_world "a/a") as [e|out] eqn:Hrun;
    [vm_compute in Hrun; discriminate|].
  destruct (repo_stats_top_five_contributors _ _ out Hrun)
    as (cs & top & Hcs & Htop & _ & Hlen).
  exists out, top. split; [reflexivity|]. split; [exact Htop|].
  vm_compute in Hcs. inversion Hcs; subst cs. exact Hlen.
Defined.

(** X15: the payload of repo-stats extends the normalised record without
    changing it: each of the nineteen canonical fields has the value
    [formatRepo] gives it, and the six added fields are copied from the
    upstream record. *)
Theorem repo_stats_extends_the_record (w : World) (repo : string) (out : value) :
  repo_stats_handler w repo = inr out ->
  exists data formatted,
    fetchGitHub w ("/repos/" ++ repo) = inr data
    /\ formatRepo data = inr formatted
    /\ (forall k, In k canonical_fields ->
          path_get out ["output"; k] = get_opt formatted k)
    /\ path_get out ["output"; "size"] = get_opt data "size"
    /\ path_get out ["output"; "hasWiki"] = get_opt data "has_wiki"
    /\ path_get out ["output"; "hasPages"] = get_opt data "has_pages"
    /\ path_get out ["output"; "hasDownloads"] = get_opt data "has_downloads"
    /\ path_get out ["output"; "subscribersCount"] = get_opt data "subscribers_count"
    /\ path_get out ["output"; "networkCount"] = get_opt data "network_count".
Proof.
  intros H. destruct (repo_stats_handler_returns w repo out H) as (data & Hr & N).
  rewrite (repo_stats_handler_fetched w repo data Hr) in H.
  exists data, (VObj (formatRepo_fields data)).
  split; [exact Hr|]. split; [apply formatRepo_defined; exact N|].
  unfold repo_stats_output in H.
  rewrite (formatRepo_defined data N) in H; cbn [bind ret] in H.
  repeat (rewrite (get_prop_defined data) in H by exact N; cbn [bind ret] in H).
  destruct (call_slice0 _ 5) as [e|top]; cbn [bind] in H; [discriminate|].
  destruct (call_map top contributor_summary) as [e|tc]; cbn [bind ret] in H;
    [discriminate|].
  inversion H; subst out; clear H.
  split; [|repeat split; reflexivity].
  intros k Hk. simpl in Hk.
  repeat (destruct Hk as [<-|Hk]; [reflexivity|]). contradiction.
Qed.

Lemma repo_stats_extends_the_record_witness :
  exists out,
    repo_stats_handler lone_repo_world "a/a" = inr out
    /\ path_get out ["output"; "fullName"] = VStr "a/a"
    /\ path_get out ["output"; "size"] = int 12.
Proof.
  destruct (repo_stats_handler lone_repo_world "a/a") as [e|out] eqn:Hrun;
    [vm_compute in Hrun; discriminate|].
  destruct (repo_stats_extends_the_record _ _ out Hrun)
    as (data & formatted & Hdata & Hfmt & Hcanon & Hsize & _).
  vm_compute in Hdata. inversion Hdata; subst data.
  vm_compute in Hfmt. inversion Hfmt; subst formatted.
  exists out. split; [reflexivity|].
  split; [rewrite (Hcanon "fullName") by (simpl; auto) | rewrite Hsize]; reflexivity.
Defined.

(** X16: the [.catch] of the contributors fetch covers the fetch only: when
    that fetch delivers a document that is not an array, repo-stats fails
    as a whole with a TypeError, although the repository itself was
    fetched. *)
Theorem repo_stats_needs_a_contributor_list (w : World) (repo : string)
  (data contributors : value) :
  fetchGitHub w ("/repos/" ++ repo) = inr data ->
  fetchGitHub w ("/repos/" ++ repo ++ "/contributors?per_page=10") = inr contributors ->
  is_array contributors = false ->
  exists e, exn_name e = "TypeError" /\ repo_stats_handler w repo = inl e.
Proof.
  intros Hr Hc Harr. rewrite (repo_stats_handler_fetched w repo data Hr), Hc.
  cbn [or_default]. unfold repo_stats_output. destruct (nullish data) eqn:N.
  - destruct data; try discriminate; eexists; (split; [|reflexivity]); reflexivity.
  - rewrite (formatRepo_defined data N); cbn [bind ret].
    repeat (rewrite (get_prop_defined data) by exact N; cbn [bind ret]).
    destruct contributors; try discriminate;
      eexists; (split; [|reflexivity]); reflexivity.
Qed.

Lemma repo_stats_needs_a_contributor_list_witness :
  exists e, exn_name e = "TypeError"
            /\ repo_stats_handler odd_contributors_world "a/a" = inl e.
Proof.
  apply (repo_stats_needs_a_contributor_list odd_contributors_world "a/a"
           (starred "a/a" 10) (VObj [("message", VStr "busy")]));
    vm_compute; reflexivity.
Defined.

(* ===================================================================== *)
(** * Further properties: the metrics of compare *)
(* ===================================================================== *)

Lemma fold_pick_member (gt : value -> value -> bool) (k : string)
  (l : list value) (a : value) :
  In (fold_left (pick gt k) l a) (a :: l).
Proof.
  revert a. induction l as [|x r IH]; intros a; [left; reflexivity|].
  cbn [fold_left]. specialize (IH (pick gt k a x)).
  destruct IH as [E|Hin]; [|right; right; exact Hin].
  rewrite <- E. unfold pick. destruct (gt _ _); [left | right; left]; reflexivity.
Qed.

Lemma fold_pick_from_index0 (gt : value -> value -> bool) (k : string)
  (l : list value) :
  l <> [] -> In (fold_left (pick gt k) l (index0 l)) l.
Proof.
  destruct l as [|a r]; [contradiction|]. intros _.
  destruct (fold_pick_member gt k (a :: r) a) as [E|Hin]; [|exact Hin].
  cbn [index0 nth]. rewrite <- E. left. reflexivity.
Qed.

(** X17: when at least one requested repository succeeds, [mostStars],
    [mostForks] and [mostRecent] each hold the [fullName] of one of the
    successful entries, whatever the upstream records contain. *)
Theorem compare_metrics_name_a_successful_entry (w : World) (repos : list string) :
  (2 <= List.length repos <= 5)%nat ->
  exists out items,
    compare w repos = inr out
    /\ path_get out ["output"; "repos"] = VArr items
    /\ (filter (tagged "success") items <> [] ->
        forall metric, In metric ["mostStars"; "mostForks"; "mostRecent"] ->
        exists e,
          In e (filter (tagged "success") items)
          /\ path_get out ["output"; "comparison"; metric] = get_opt e "fullName").
Proof.
  intros Hlen. unfold compare.
  rewrite (compare_schema_accepts repos Hlen). cbn [bind ret].
  rewrite compare_handler_value.
  eexists. exists (map (compare_entry w) repos).
  split; [reflexivity|]. split; [reflexivity|].
  intros Hne metric Hm. simpl in Hm.
  destruct Hm as [<-|[<-|[<-|[]]]]; eexists;
    (split; [apply fold_pick_from_index0; exact Hne | reflexivity]).
Qed.

Lemma compare_metrics_name_a_successful_entry_witness :
  exists out e,
    compare unstarred_world ["a/a"; "b/b"; "c/c"] = inr out
    /\ In e (filter (tagged "success")
               (map (compare_entry unstarred_world) ["a/a"; "b/b"; "c/c"]))
    /\ path_get out ["output"; "comparison"; "mostStars"] = get_opt e "fullName".
Proof.
  destruct (compare_metrics_name_a_successful_entry unstarred_world ["a/a"; "b/b"; "c/c"])
    as (out & items & Hrun & Hitems & Hmetric); [simpl; lia|].
  assert (Hval : items = map (compare_entry unstarred_world) ["a/a"; "b/b"; "c/c"]).
  { unfold compare in Hrun. rewrite compare_schema_accepts in Hrun by (simpl; lia).
    cbn [bind ret] in Hrun. rewrite compare_handler_value in Hrun.
    inversion Hrun; subst out. cbn in Hitems. inversion Hitems. reflexivity. }
  subst items.
  destruct (Hmetric ltac:(vm_compute; discriminate) "mostStars" (or_introl eq_refl))
    as (e & He & Hname).
  exists out, e. repeat split; assumption.
Defined.

Lemma js_add_number_or_missing (eng : Engine) (a : num) (v : value) :
  number_or_missing v = true ->
  exists b, js_add eng (VNum a) v = VNum b
            /\ (a = NaN \/ v = VUndefined -> b = NaN).
Proof.
  destruct v as [| | |n| | |]; try discriminate; intros _.
  - exists NaN. split; [destruct a; reflexivity | reflexivity].
  - exists (num_add a n). split; [reflexivity|].
    intros [->|E]; [reflexivity | discriminate].
Qed.

Lemma sum_with_missing_stars (eng : Engine) (l : list value) (a : num) :
  forallb (fun e => number_or_missing (get_opt e "stars")) l = true ->
  exists b,
    fold_left (fun sum r => js_add eng sum (get_opt r "stars")) l (VNum a) = VNum b
    /\ (a = NaN -> b = NaN)
    /\ (existsb (fun e => nullish (get_opt e "stars")) l = true -> b = NaN).
Proof.
  revert a. induction l as [|x r IH]; intros a Hall.
  - exists a. split; [reflexivity|]. split; [auto | discriminate].
  - cbn [forallb] in Hall. apply andb_prop in Hall as [Hx Hr].
    destruct (js_add_number_or_missing eng a (get_opt x "stars") Hx) as (b & Hb & Hnan).
    destruct (IH b Hr) as (c & Hc & Hkeep & Hmiss).
    exists c. cbn [fold_left]. rewrite Hb. split; [exact Hc|]. split.
    + intros ->. apply Hkeep, Hnan. left. reflexivity.
    + cbn [existsb]. intros H. apply orb_prop in H as [H|H]; [|apply Hmiss; exact H].
      apply Hkeep, Hnan. right.
      destruct (get_opt x "stars"); try discriminate; reflexivity.
Qed.

(** X18: when the star counts of the successful entries are numbers except
    that at least one is missing, [avgStars] is NaN, which the JSON output
    renders as [null]: one record without a star count voids the
    average. *)
Theorem compare_avg_stars_void_when_a_count_is_missing (w : World)
  (repos : list string) :
  (2 <= List.length repos <= 5)%nat ->
  exists out items,
    compare w repos = inr out
    /\ path_get out ["output"; "repos"] = VArr items
    /\ (forallb (fun e => number_or_missing (get_opt e "stars"))
          (filter (tagged "success") items) = true ->
        existsb (fun e => nullish (get_opt e "stars"))
          (filter (tagged "success") items) = true ->
        path_get out ["output"; "comparison"; "avgStars"] = VNum NaN
        /\ json_field "avgStars" (JSON_of (path_get out ["output"; "comparison"]))
           = Some JNull).
Proof.
  intros Hlen. unfold compare.
  rewrite (compare_schema_accepts repos Hlen). cbn [bind ret].
  rewrite compare_handler_value.
  eexists. exists (map (compare_entry w) repos).
  split; [reflexivity|]. split; [reflexivity|].
  intros Hall Hmiss.
  destruct (sum_with_missing_stars (engine w) _ (Fin 0) Hall) as (b & Hb & _ & Hnan).
  specialize (Hnan Hmiss). subst b.
  cbn [path_get get_opt own_prop lookup String.eqb Ascii.eqb Bool.eqb comparison_value].
  rewrite Hb. split; [reflexivity|].
  unfold comparison_value. rewrite json_field_object.
  - cbn [lookup String.eqb Ascii.eqb Bool.eqb]. rewrite Hb. reflexivity.
  - repeat (constructor; [simpl; intuition discriminate|]). constructor.
Qed.

Lemma compare_avg_stars_void_when_a_count_is_missing_witness :
  exists out,
    compare unstarred_world ["a/a"; "b/b"] = inr out
    /\ path_get out ["output"; "comparison"; "avgStars"] = VNum NaN
    /\ json_field "avgStars" (JSON_of (path_get out ["output"; "comparison"]))
       = Some JNull.
Proof.
  destruct (compare_avg_stars_void_when_a_count_is_missing unstarred_world ["a/a"; "b/b"])
    as (out & items & Hrun & Hitems & Hvoid); [simpl; lia|].
  assert (Hval : items = map (compare_entry unstarred_world) ["a/a"; "b/b"]).
  { unfold compare in Hrun. rewrite compare_schema_accepts in Hrun by (simpl; lia).
    cbn [bind ret] in Hrun. rewrite compare_handler_value in Hrun.
    inversion Hrun; subst out. cbn in Hitems. inversion Hitems. reflexivity. }
  subst items.
  destruct Hvoid as [Havg Hjson]; [vm_compute; reflexivity ..|].
  exists out. repeat split; assumption.
Defined.

(* ===================================================================== *)
(** * Further properties: the timestamp of a response *)
(* ===================================================================== *)

Lemma now_iso_timestamp (w : World) (k : nat) :
  four_digit_year (clock w k) -> iso_timestamp_of (clock w k) (now_iso w k).
Proof.
  unfold four_digit_year, now_iso. set (t := clock w k). intros Hrange.
  pose proof (civil_date_of_time t) as (Hm & Hd & Hcivil).
  assert (Hy : 0 <= Calendar.YearFromTime t < 10000).
  { apply YearFromDay_range.
    change (Calendar.DayFromYear 0) with (-719528).
    change (Calendar.DayFromYear 10000) with 2932897.
    unfold Calendar.Day, Calendar.msPerDay.
    Z.to_euclidean_division_equations; lia. }
  exists (Calendar.YearFromTime t), (Calendar.MonthFromTime t + 1),
    (Calendar.DateFromTime t), (Calendar.HourFromTime t), (Calendar.MinFromTime t),
    (Calendar.SecFromTime t), (Calendar.msFromTime t).
  split.
  { unfold Calendar.iso_string, Calendar.iso_date, Calendar.iso_time, Calendar.iso_year.
    destruct (Z.leb_spec 0 (Calendar.YearFromTime t)); [|lia].
    destruct (Z.leb_spec (Calendar.YearFromTime t) 9999); [|lia].
    cbn [andb]. rewrite !append_assoc. reflexivity. }
  split; [lia|]. split; [exact Hm|]. split; [exact Hd|].
  unfold Calendar.HourFromTime, Calendar.MinFromTime, Calendar.SecFromTime,
    Calendar.msFromTime.
  split; [apply Z.mod_pos_bound; lia|]. split; [apply Z.mod_pos_bound; lia|].
  split; [apply Z.mod_pos_bound; lia|]. split; [apply Z.mod_pos_bound; lia|].
  rewrite Hcivil. unfold Calendar.Day, Calendar.msPerDay.
  Z.to_euclidean_division_equations; lia.
Qed.

Lemma overview_fetchedAt (w : World) (out : value) :
  overview_handler w = inr out -> path_get out ["output"; "fetchedAt"] = now_iso w 0.
Proof.
  unfold overview_handler. intros H.
  destruct (fetchGitHub w overview_path) as [e|data]; cbn [bind] in H; [discriminate|].
  destruct (get_prop data "items") as [e|items]; cbn [bind] in H; [discriminate|].
  destruct (call_slice0 items 3) as [e|top]; cbn [bind] in H; [discriminate|].
  destruct (call_map top overview_sample) as [e|sample]; cbn [bind ret] in H;
    [discriminate|].
  inversion H. reflexivity.
Qed.

Lemma trending_fetchedAt (w : World) (raw : trending_raw) (out : value) :
  trending w raw = inr out -> path_get out ["output"; "fetchedAt"] = now_iso w 1.
Proof.
  unfold trending. intros H.
  destruct (trending_schema raw) as [e|input]; cbn [bind] in H; [discriminate|].
  unfold trending_handler in H.
  destruct (trending_path w input) as [e|path]; cbn [bind] in H; [discriminate|].
  destruct (fetchGitHub w path) as [e|data]; cbn [bind] in H; [discriminate|].
  destruct (search_results data) as [e|res] eqn:Hres; cbn [bind ret] in H;
    [discriminate|].
  apply search_results_shape in Hres as (items & repos & total & -> & _ & _).
  inversion H. reflexivity.
Qed.

Lemma search_fetchedAt (w : World) (raw : search_raw) (out : value) :
  search w raw = inr out -> path_get out ["output"; "fetchedAt"] = now_iso w 0.
Proof.
  unfold search. intros H.
  destruct (search_schema raw) as [e|input]; cbn [bind] in H; [discriminate|].
  unfold search_handler in H.
  destruct (fetchGitHub w (search_path w input)) as [e|data]; cbn [bind] in H;
    [discriminate|].
  destruct (search_results data) as [e|res] eqn:Hres; cbn [bind ret] in H;
    [discriminate|].
  apply search_results_shape in Hres as (items & repos & total & -> & _ & _).
  inversion H. reflexivity.
Qed.

Lemma repo_stats_fetchedAt (w : World) (repo : string) (out : value) :
  repo_stats_handler w repo = inr out ->
  path_get out ["output"; "fetchedAt"] = now_iso w 0.
Proof.
  intros H. destruct (repo_stats_handler_returns w repo out H) as (data & Hr & N).
  rewrite (repo_stats_handler_fetched w repo data Hr) in H.
  unfold repo_stats_output in H.
  rewrite (formatRepo_defined data N) in H; cbn [bind ret] in H.
  repeat (rewrite (get_prop_defined data) in H by exact N; cbn [bind ret] in H).
  destruct (call_slice0 _ 5) as [e|top]; cbn [bind] in H; [discriminate|].
  destruct (call_map top contributor_summary) as [e|tc]; cbn [bind ret] in H;
    [discriminate|].
  inversion H. reflexivity.
Qed.

Lemma releases_fetchedAt (w : World) (raw : releases_raw) (out : value) :
  releases w raw = inr out -> path_get out ["output"; "fetchedAt"] = now_iso w 0.
Proof.
  unfold releases. intros H.
  destruct (releases_schema raw) as [e|input]; cbn [bind] in H; [discriminate|].
  unfold releases_handler in H.
  destruct (fetchGitHub w (releases_path w input)) as [e|list]; cbn [bind] in H;
    [discriminate|].
  destruct (get_prop list "length") as [e|count]; cbn [bind] in H; [discriminate|].
  destruct (call_map list release_summary) as [e|summaries]; cbn [bind ret] in H;
    [discriminate|].
  inversion H. reflexivity.
Qed.

Lemma compare_fetchedAt (w : World) (repos : list string) (out : value) :
  compare w repos = inr out -> path_get out ["output"; "fetchedAt"] = now_iso w 0.
Proof.
  unfold compare. intros H.
  destruct (compare_schema repos) as [e|input]; cbn [bind] in H; [discriminate|].
  rewrite compare_handler_value in H. inversion H. reflexivity.
Qed.

(** X19: in the response of every handler that returns, [fetchedAt] is the
    text [YYYY-MM-DDTHH:mm:ss.sssZ] of the clock reading taken when the
    response is assembled (the second reading in trending, the first
    elsewhere): its decimal fields lie in their ranges and recompose to
    that instant.  The reading is taken within the years 0 to 9999. *)
Theorem fetchedAt_is_the_clock_reading (w : World) :
  (forall out, overview_handler w = inr out -> four_digit_year (clock w 0) ->
     iso_timestamp_of (clock w 0) (path_get out ["output"; "fetchedAt"]))
  /\ (forall raw out, trending w raw = inr out -> four_digit_year (clock w 1) ->
        iso_timestamp_of (clock w 1) (path_get out ["output"; "fetchedAt"]))
  /\ (forall repo out, repo_stats_handler w repo = inr out ->
        four_digit_year (clock w 0) ->
        iso_timestamp_of (clock w 0) (path_get out ["output"; "fetchedAt"]))
  /\ (forall raw out, releases w raw = inr out -> four_digit_year (clock w 0) ->
        iso_timestamp_of (clock w 0) (path_get out ["output"; "fetchedAt"]))
  /\ (forall raw out, search w raw = inr out -> four_digit_year (clock w 0) ->
        iso_timestamp_of (clock w 0) (path_get out ["output"; "fetchedAt"]))
  /\ (forall repos out, compare w repos = inr out -> four_digit_year (clock w 0) ->
        iso_timestamp_of (clock w 0) (path_get out ["output"; "fetchedAt"])).
Proof.
  split; [|split; [|split; [|split; [|split]]]].
  - intros out H Hy. rewrite (overview_fetchedAt w out H). apply now_iso_timestamp, Hy.
  - intros raw out H Hy. rewrite (trending_fetchedAt w raw out H).
    apply now_iso_timestamp, Hy.
  - intros repo out H Hy. rewrite (repo_stats_fetchedAt w repo out H).
    apply now_iso_timestamp, Hy.
  - intros raw out H Hy. rewrite (releases_fetchedAt w raw out H).
    apply now_iso_timestamp, Hy.
  - intros raw out H Hy. rewrite (search_fetchedAt w raw out H).
    apply now_iso_timestamp, Hy.
  - intros repos out H Hy. rewrite (compare_fetchedAt w repos out H).
    apply now_iso_timestamp, Hy.
Qed.

Lemma fetchedAt_is_the_clock_reading_witness :
  exists out,
    compare b_only_world ["a/a"; "b/b"] = inr out
    /\ iso_timestamp_of feb_2026 (path_get out ["output"; "fetchedAt"])
    /\ path_get out ["output"; "fetchedAt"] = VStr "2026-02-01T00:00:00.000Z".
Proof.
  destruct (compare b_only_world ["a/a"; "b/b"]) as [e|out] eqn:Hrun;
    [vm_compute in Hrun; discriminate|].
  destruct (fetchedAt_is_the_clock_reading b_only_world) as (_ & _ & _ & _ & _ & Hcmp).
  exists out. split; [reflexivity|]. split.
  - apply (Hcmp ["a/a"; "b/b"] out Hrun). unfold four_digit_year.
    vm_compute. split; [discriminate|reflexivity].
  - vm_compute in Hrun. inversion Hrun. reflexivity.
Defined.

(* ===================================================================== *)
(** * Further properties: what the overview reads *)
(* ===================================================================== *)

(** X20: the overview looks at the first three upstream items only: two
    upstream documents whose item lists agree on their first three
    elements give the same response at the same clock reading, be it a
    payload or a failure; a malformed fourth item is never met. *)
Theorem overview_reads_three_items_only (w w' : World) (data data' : value)
  (items items' : list value) :
  fetchGitHub w overview_path = inr data ->
  fetchGitHub w' overview_path = inr data' ->
  get_prop data "items" = inr (VArr items) ->
  get_prop data' "items" = inr (VArr items') ->
  firstn 3 items = firstn 3 items' ->
  clock w 0 = clock w' 0 ->
  overview_handler w = overview_handler w'.
Proof.
  intros Hf Hf' Hi Hi' Hfirst Hclock. unfold overview_handler, now_iso.
  rewrite Hf, Hf'. cbn [bind]. rewrite Hi, Hi'. cbn [bind call_slice0 ret].
  rewrite Hfirst, Hclock. reflexivity.
Qed.

Lemma overview_reads_three_items_only_witness :
  overview_handler (overview_world four_items)
  = overview_handler (overview_world (firstn 3 four_items ++ [VNull; int 7])%list).
Proof.
  apply (overview_reads_three_items_only _ _
           (VObj [("items", VArr four_items)])
           (VObj [("items", VArr (firstn 3 four_items ++ [VNull; int 7])%list)])
           four_items (firstn 3 four_items ++ [VNull; int 7])%list);
    try reflexivity; vm_compute; reflexivity.
Defined.

(* ===================================================================== *)
(** * Further properties: the range of the average *)
(* ===================================================================== *)

Lemma sum_Z_bounds (stars : list Z) (lo hi : Z) :
  Forall (fun z => lo <= z <= hi) stars ->
  Z.of_nat (List.length stars) * lo <= sum_Z stars
  <= Z.of_nat (List.length stars) * hi.
Proof.
  induction 1 as [|z r Hz _ IH]; [simpl; lia|].
  cbn [sum_Z List.length]. rewrite Nat2Z.inj_succ. lia.
Qed.

Lemma avg_stars_of_integers (w : World) (repos : list string) (stars : list Z) :
  stars <> [] ->
  map (fun e => get_opt e "stars")
    (filter (tagged "success") (map (compare_entry w) repos)) = map int stars ->
  get_opt
    (comparison_value (engine w)
       (filter (tagged "success") (map (compare_entry w) repos))) "avgStars"
  = int ((2 * sum_Z stars + Z.of_nat (List.length stars))
         / (2 * Z.of_nat (List.length stars))).
Proof.
  intros Hne Hstars.
  assert (Hn : 0 < Z.of_nat (List.length stars)).
  { destruct stars; [contradiction | simpl; lia]. }
  cbn [get_opt own_prop lookup String.eqb Ascii.eqb Bool.eqb comparison_value].
  change (VNum (Fin 0)) with (int 0).
  rewrite (sum_of_stars (engine w) _ stars 0 Hstars). cbn [Z.add].
  assert (Hcount : array_length (filter (tagged "success") (map (compare_entry w) repos))
                   = num_of_Z (Z.of_nat (List.length stars))).
  { unfold array_length. apply (f_equal (@List.length value)) in Hstars.
    rewrite !length_map in Hstars. rewrite Hstars. reflexivity. }
  rewrite Hcount. change (VNum (num_of_Z ?n)) with (int n).
  rewrite (round_of_quotient (engine w) (sum_Z stars) _ Hn). reflexivity.
Qed.

(** X21: with successful entries whose star counts are integers from 0 to
    below 2^48, [avgStars] is an integer between the smallest and the
    largest of them. *)
Theorem compare_avg_stars_within_range (w : World) (repos : list string) :
  (2 <= List.length repos <= 5)%nat ->
  exists out items,
    compare w repos = inr out
    /\ path_get out ["output"; "repos"] = VArr items
    /\ forall (stars : list Z) (lo hi : Z),
         stars <> [] ->
         map (fun e => get_opt e "stars") (filter (tagged "success") items)
           = map int stars ->
         Forall (fun z => lo <= z <= hi) stars ->
         0 <= lo -> hi < 2 ^ 48 ->
         exists avg,
           path_get out ["output"; "comparison"; "avgStars"] = int avg
           /\ lo <= avg <= hi.
Proof.
  intros Hlen. unfold compare.
  rewrite (compare_schema_accepts repos Hlen). cbn [bind ret].
  rewrite compare_handler_value.
  eexists. exists (map (compare_entry w) repos).
  split; [reflexivity|]. split; [reflexivity|].
  intros stars lo hi Hne Hstars Hrange Hlo0 Hhi48.
  eexists. split.
  - change (path_get ?o ["output"; "comparison"; "avgStars"])
      with (get_opt (comparison_value (engine w)
                       (filter (tagged "success") (map (compare_entry w) repos)))
              "avgStars").
    apply (avg_stars_of_integers w repos stars Hne Hstars).
  - pose proof (sum_Z_bounds stars lo hi Hrange) as [Hlo Hhi].
    assert (Hn : 0 < Z.of_nat (List.length stars)).
    { destruct stars; [contradiction | simpl; lia]. }
    split.
    + apply Z.div_le_lower_bound; lia.
    + apply Z.lt_succ_r. apply Z.div_lt_upper_bound; lia.
Qed.

Lemma compare_avg_stars_within_range_witness :
  exists out avg,
    compare three_world ["a/a"; "b/b"; "c/c"] = inr out
    /\ path_get out ["output"; "comparison"; "avgStars"] = int avg
    /\ 10 <= avg <= 50.
Proof.
  destruct (compare_avg_stars_within_range three_world ["a/a"; "b/b"; "c/c"])
    as (out & items & Hrun & Hitems & Havg); [simpl; lia|].
  assert (Hval : items = map (compare_entry three_world) ["a/a"; "b/b"; "c/c"]).
  { unfold compare in Hrun. rewrite compare_schema_accepts in Hrun by (simpl; lia).
    cbn [bind ret] in Hrun. rewrite compare_handler_value in Hrun.
    inversion Hrun; subst out. cbn in Hitems. inversion Hitems. reflexivity. }
  subst items.
  destruct (Havg [10; 30; 50] 10 50) as (avg & Hval & Hin);
    [discriminate | reflexivity | repeat constructor; lia | lia | lia |].
  exists out, avg. repeat split; try assumption; lia.
Defined.
